(** * Espada: the signup wizard and the profile/follow data access

    A shallow embedding of
    - [components/SignupFlow.tsx] (both copies: the one that checks user
      names against the [profiles] table and the older one with the mock
      black list),
    - [lib/database.ts] ([profileOperations], [followOperations]),
    - the two migrations that declare the [profiles] and [follows] tables,
    and the properties of the specification that concern them.

    JavaScript strings are sequences of UTF-16 code units, React state is a
    record, the hosted database is a pair of tables with the constraints of
    the migrations, and promises are computations over that backend that
    either fulfil or reject. *)

From Stdlib Require Import ZArith NArith List Bool Lia String Ascii Permutation
  Sorted.
Import ListNotations.

(* ================================================================== *)
(** * JavaScript strings and the built-ins the code calls              *)
(* ================================================================== *)

Module Js.

Local Open Scope N_scope.

(** A string is its sequence of UTF-16 code units; [length] is the
    property [.length], [=] is [===]. *)
Definition jsstring := list N.

(** A literal of Basic Latin characters: one code unit per character. *)
Definition js (s : string) : jsstring :=
  map N_of_ascii (list_ascii_of_string s).

Definition eqb_str (a b : jsstring) : bool :=
  if list_eq_dec N.eq_dec a b then true else false.

(** [Array.prototype.includes] on an array of strings. *)
Definition includes (xs : list jsstring) (x : jsstring) : bool :=
  existsb (eqb_str x) xs.

(** [s.includes(c)] for a one-code-unit needle [c]. *)
Definition includesUnit (s : jsstring) (c : N) : bool :=
  existsb (N.eqb c) s.

(** [String.prototype.toLowerCase] follows the Unicode case mapping, which
    the code only ever uses as a function from strings to strings: it is an
    operation of the runtime. *)
Class Runtime := { toLowerCase : jsstring -> jsstring }.

(** The mapping on Basic Latin, where it moves [A-Z] to [a-z] and nothing
    else; on strings of Basic Latin characters this is [toLowerCase]. *)
Definition lowerUnit (c : N) : N :=
  if (65 <=? c) && (c <=? 90) then c + 32 else c.

Definition basicLatin : Runtime := {| toLowerCase := map lowerUnit |}.

(** ** [parseInt(string)] with no radix (ECMA-262, 19.2.5) *)

(** WhiteSpace and LineTerminator code points, all in the BMP. *)
Definition isStrWhiteSpaceChar (c : N) : bool :=
  (c =? 9) || (c =? 10) || (c =? 11) || (c =? 12) || (c =? 13) ||
  (c =? 32) || (c =? 160) || (c =? 5760) ||
  ((8192 <=? c) && (c <=? 8202)) ||
  (c =? 8232) || (c =? 8233) || (c =? 8239) || (c =? 8287) ||
  (c =? 12288) || (c =? 65279).

Fixpoint trimStart (s : jsstring) : jsstring :=
  match s with
  | c :: r => if isStrWhiteSpaceChar c then trimStart r else s
  | [] => []
  end.

(** The value of [0-9], [a-z], [A-Z] as a digit. *)
Definition digitValue (c : N) : option Z :=
  if (48 <=? c) && (c <=? 57) then Some (Z.of_N c - 48)%Z
  else if (97 <=? c) && (c <=? 122) then Some (Z.of_N c - 87)%Z
  else if (65 <=? c) && (c <=? 90) then Some (Z.of_N c - 55)%Z
  else None.

Definition radixDigit (R : Z) (c : N) : option Z :=
  match digitValue c with
  | Some d => if (d <? R)%Z then Some d else None
  | None => None
  end.

(** The longest prefix made of radix-[R] digits, as digit values. *)
Fixpoint digitsPrefix (R : Z) (s : jsstring) : list Z :=
  match s with
  | c :: r =>
      match radixDigit R c with
      | Some d => d :: digitsPrefix R r
      | None => []
      end
  | [] => []
  end.

Definition mathInt (R : Z) (ds : list Z) : Z :=
  fold_left (fun acc d => acc * R + d)%Z ds 0%Z.

(** [None] is [NaN].  The result is the exact integer: the code only
    compares it with 13 and 120, and the conversion to a Number is monotone
    and exact on integers below 2^53, so these comparisons come out the same
    on the Number. *)
Definition parseInt (input : jsstring) : option Z :=
  let trimmed := trimStart input in
  let sign := match trimmed with
              | c :: _ => if c =? 45 then (-1)%Z else 1%Z
              | [] => 1%Z
              end in
  let unsigned := match trimmed with
                  | c :: r => if (c =? 45) || (c =? 43) then r else trimmed
                  | [] => trimmed
                  end in
  let '(R, body) := match unsigned with
                    | z :: x :: r =>
                        if (z =? 48) && ((x =? 120) || (x =? 88))
                        then (16%Z, r) else (10%Z, unsigned)
                    | _ => (10%Z, unsigned)
                    end in
  match digitsPrefix R body with
  | [] => None
  | ds => Some (sign * mathInt R ds)%Z
  end.

(** [x >= lo] and [x <= hi] on a Number that may be [NaN]. *)
Definition geNum (x : option Z) (lo : Z) : bool :=
  match x with Some n => (lo <=? n)%Z | None => false end.

Definition leNum (x : option Z) (hi : Z) : bool :=
  match x with Some n => (n <=? hi)%Z | None => false end.

End Js.

Import Js.

(* ================================================================== *)
(** * The hosted backend: session, tables, statements                  *)
(* ================================================================== *)

Module Supabase.

Record User := { uid : jsstring }.

Record PostgrestError := { code : jsstring; message : jsstring }.

(** The [{ data, error }] object every statement resolves to. *)
Record Response (A : Type) := { data : option A; error : option PostgrestError }.

Arguments data {A} _.
Arguments error {A} _.

Definition ok {A : Type} (a : A) : Response A :=
  {| data := Some a; error := None |}.

Definition failed {A : Type} (e : PostgrestError) : Response A :=
  {| data := None; error := Some e |}.

(** The columns of [profiles] and [follows] that the statements below read
    or write. *)
Record ProfileRow := { id : jsstring; username : jsstring; is_private : bool }.

Record FollowRow := { follower_id : jsstring; following_id : jsstring }.

(** The statements the client sends, as the query builder spells them. *)
Inductive Statement :=
  | SelectProfileByUsername (key : jsstring)
  | InsertFollow (row : FollowRow)
  | DeleteFollow (follower following : jsstring)
  | SelectFollow (follower following : jsstring).

(** [session] is what [auth.getUser()] answers; [outage] is a failure of the
    service that has nothing to do with the rows (network, timeout), which
    makes every statement resolve to that error; [sent] records the
    statements issued, the latest last. *)
Record Backend := {
  session : option User;
  profiles : list ProfileRow;
  follows : list FollowRow;
  outage : option PostgrestError;
  sent : list Statement
}.

Definition record (st : Statement) (b : Backend) : Backend :=
  {| session := session b; profiles := profiles b; follows := follows b;
     outage := outage b; sent := sent b ++ [st] |}.

Definition setFollows (fs : list FollowRow) (b : Backend) : Backend :=
  {| session := session b; profiles := profiles b; follows := fs;
     outage := outage b; sent := sent b |}.

(** ** Promises over the backend *)

Inductive Settled (A : Type) :=
  | Fulfilled (a : A)
  | Rejected (reason : jsstring).

Arguments Fulfilled {A} a.
Arguments Rejected {A} reason.

Definition Promise (A : Type) := Backend -> Settled A * Backend.

Definition resolve {A : Type} (a : A) : Promise A :=
  fun b => (Fulfilled a, b).

(** [throw new Error(msg)] inside an async function. *)
Definition throw {A : Type} (msg : jsstring) : Promise A :=
  fun b => (Rejected msg, b).

Definition await {A B : Type} (p : Promise A) (k : A -> Promise B) : Promise B :=
  fun b =>
    match p b with
    | (Fulfilled a, b') => k a b'
    | (Rejected e, b') => (Rejected e, b')
    end.

Declare Scope promise_scope.
Delimit Scope promise_scope with promise.
Notation "x <- p ;; k" := (await p (fun x => k))
  (at level 61, p at next level, right associativity) : promise_scope.

(** ** Errors of the service *)

Definition PGRST116 : PostgrestError :=
  {| code := js "PGRST116";
     message := js "JSON object requested, multiple (or no) rows returned" |}.

Definition rls_violation : PostgrestError :=
  {| code := js "42501";
     message := js "new row violates row-level security policy" |}.

Definition check_violation : PostgrestError :=
  {| code := js "23514";
     message := js "new row violates check constraint" |}.

Definition unique_violation : PostgrestError :=
  {| code := js "23505";
     message := js "duplicate key value violates unique constraint" |}.

Definition foreign_key_violation : PostgrestError :=
  {| code := js "23503";
     message := js "insert violates foreign key constraint" |}.

(** [.single()]: exactly one row, or the error PGRST116. *)
Definition single {A : Type} (rows : list A) : Response A :=
  match rows with
  | [r] => ok r
  | _ => failed PGRST116
  end.

(** ** Row-level security (the policies of the two migrations)

    Every policy is [TO authenticated]: without a session no row passes. *)

(** [profiles], SELECT: "Users can view own profile" ([auth.uid() = id]) or
    "Public profiles are viewable by everyone" ([NOT is_private]). *)
Definition profiles_select_policy (b : Backend) (r : ProfileRow) : bool :=
  match session b with
  | Some u => eqb_str (uid u) (id r) || negb (is_private r)
  | None => false
  end.

(** [follows], SELECT: "Users can view follows they are involved in". *)
Definition follows_select_policy (b : Backend) (r : FollowRow) : bool :=
  match session b with
  | Some u =>
      eqb_str (uid u) (follower_id r) || eqb_str (uid u) (following_id r)
      || existsb (fun p => eqb_str (id p) (following_id r)
                           && negb (is_private p)) (profiles b)
  | None => false
  end.

(** [follows], INSERT: "Users can follow others", and DELETE: "Users can
    unfollow others"; both [auth.uid() = follower_id]. *)
Definition follows_write_policy (b : Backend) (r : FollowRow) : bool :=
  match session b with
  | Some u => eqb_str (uid u) (follower_id r)
  | None => false
  end.

(** ** Statements *)

Definition getUser : Promise (option User) :=
  fun b => (Fulfilled (session b), b).

(** A statement is recorded, then answered by the outage if there is one and
    by the tables otherwise. *)
Definition statement {A : Type} (st : Statement)
    (exec : Backend -> Response A * Backend) : Promise (Response A) :=
  fun b =>
    let b1 := record st b in
    match outage b1 with
    | Some e => (Fulfilled (failed e), b1)
    | None => let (r, b2) := exec b1 in (Fulfilled r, b2)
    end.

(** [from('profiles').select('username').eq('username', key).single()];
    the column is [text], compared as it is stored. *)
Definition selectProfileByUsername (key : jsstring) : Promise (Response jsstring) :=
  statement (SelectProfileByUsername key) (fun b =>
    let rows := filter (fun r => profiles_select_policy b r
                                 && eqb_str (username r) key) (profiles b) in
    (single (map username rows), b)).

Definition same_edge (a b : FollowRow) : bool :=
  eqb_str (follower_id a) (follower_id b)
  && eqb_str (following_id a) (following_id b).

Definition profile_exists (b : Backend) (i : jsstring) : bool :=
  existsb (fun p => eqb_str (id p) i) (profiles b).

(** [from('follows').insert(row).select().single()].  The row has to pass
    the INSERT policy, [CHECK (follower_id != following_id)],
    [UNIQUE(follower_id, following_id)] and the two references to
    [profiles(id)], in that order. *)
Definition insertFollow (row : FollowRow) : Promise (Response FollowRow) :=
  statement (InsertFollow row) (fun b =>
    if negb (follows_write_policy b row) then (failed rls_violation, b)
    else if eqb_str (follower_id row) (following_id row)
    then (failed check_violation, b)
    else if existsb (same_edge row) (follows b)
    then (failed unique_violation, b)
    else if negb (profile_exists b (follower_id row)
                  && profile_exists b (following_id row))
    then (failed foreign_key_violation, b)
    else (ok row, setFollows (follows b ++ [row]) b)).

Definition edge_is (follower following : jsstring) (r : FollowRow) : bool :=
  eqb_str (follower_id r) follower && eqb_str (following_id r) following.

(** [from('follows').delete().eq('follower_id', f).eq('following_id', g)]:
    the rows the DELETE policy lets through and the filter selects go; no
    row at all is not an error. *)
Definition deleteFollow (follower following : jsstring)
    : Promise (Response unit) :=
  statement (DeleteFollow follower following) (fun b =>
    let gone r := follows_write_policy b r && edge_is follower following r in
    ({| data := None; error := None |},
     setFollows (filter (fun r => negb (gone r)) (follows b)) b)).

(** [from('follows').select('id').eq('follower_id', f)
      .eq('following_id', g).single()] *)
Definition selectFollow (follower following : jsstring)
    : Promise (Response FollowRow) :=
  statement (SelectFollow follower following) (fun b =>
    (single (filter (fun r => follows_select_policy b r
                              && edge_is follower following r) (follows b)),
     b)).

(** What the migrations guarantee of the stored rows: user names are
    unique, and [follows] has no repeated edge, no self-follow, and only
    refers to profiles. *)
Definition consistent (b : Backend) : Prop :=
  NoDup (map username (profiles b))
  /\ NoDup (map id (profiles b))
  /\ NoDup (map (fun r => (follower_id r, following_id r)) (follows b))
  /\ (forall r, In r (follows b) ->
        follower_id r <> following_id r
        /\ profile_exists b (follower_id r) = true
        /\ profile_exists b (following_id r) = true).

End Supabase.

(* ================================================================== *)
(** * The trigger that keeps the follow counts                         *)
(* ================================================================== *)

Module FollowCounts.

Import Supabase.
Local Open Scope Z_scope.

(** The columns of [profiles] that [update_follow_counts] reads or writes.
    The counts are [integer DEFAULT 0]; they are kept as unbounded integers
    here: an [UPDATE] beyond 2^31 - 1 raises an error rather than wrapping,
    and a count set to NULL by hand (it stays NULL under [+ 1]) is left
    out. *)
Record Counters := {
  profile_id : jsstring;
  followers_count : Z;
  following_count : Z
}.

(** The row event the trigger function is called for. *)
Inductive TriggerEvent :=
  | INSERT (new : FollowRow)
  | DELETE (old : FollowRow).

(** [UPDATE profiles SET following_count = following_count + d
     WHERE id = who] *)
Definition add_following (d : Z) (who : jsstring) (ps : list Counters)
    : list Counters :=
  map (fun p => if eqb_str (profile_id p) who
                then {| profile_id := profile_id p;
                        followers_count := followers_count p;
                        following_count := following_count p + d |}
                else p) ps.

(** [UPDATE profiles SET followers_count = followers_count + d
     WHERE id = who] *)
Definition add_followers (d : Z) (who : jsstring) (ps : list Counters)
    : list Counters :=
  map (fun p => if eqb_str (profile_id p) who
                then {| profile_id := profile_id p;
                        followers_count := followers_count p + d;
                        following_count := following_count p |}
                else p) ps.

(** [public.update_follow_counts()], run [AFTER INSERT OR DELETE ON follows
    FOR EACH ROW]. *)
Definition update_follow_counts (ev : TriggerEvent) (ps : list Counters)
    : list Counters :=
  match ev with
  | INSERT new =>
      add_followers 1 (following_id new)
        (add_following 1 (follower_id new) ps)
  | DELETE old =>
      add_followers (-1) (following_id old)
        (add_following (-1) (follower_id old) ps)
  end.

(** The trigger run for each row of a statement, in turn. *)
Definition fire (evs : list TriggerEvent) (ps : list Counters) : list Counters :=
  fold_left (fun acc ev => update_follow_counts ev acc) evs ps.

(** The rows a [DELETE] by both columns removes. *)
Definition deleted (follower following : jsstring) (fs : list FollowRow)
    : list FollowRow :=
  filter (edge_is follower following) fs.

Definition followersOf (i : jsstring) (fs : list FollowRow) : Z :=
  Z.of_nat (List.length (filter (fun r => eqb_str (following_id r) i) fs)).

Definition followingOf (i : jsstring) (fs : list FollowRow) : Z :=
  Z.of_nat (List.length (filter (fun r => eqb_str (follower_id r) i) fs)).

(** The counts of every profile are the numbers of its edges. *)
Definition counted (ps : list Counters) (fs : list FollowRow) : Prop :=
  forall p, In p ps ->
    followers_count p = followersOf (profile_id p) fs
    /\ following_count p = followingOf (profile_id p) fs.

(** What the trigger function does to one row of [profiles]: the two
    [UPDATE]s read as one pass. *)
Definition bumped (ev : TriggerEvent) (p : Counters) : Counters :=
  match ev with
  | INSERT r =>
      {| profile_id := profile_id p;
         followers_count := followers_count p
           + (if eqb_str (profile_id p) (following_id r) then 1 else 0);
         following_count := following_count p
           + (if eqb_str (profile_id p) (follower_id r) then 1 else 0) |}
  | DELETE r =>
      {| profile_id := profile_id p;
         followers_count := followers_count p
           - (if eqb_str (profile_id p) (following_id r) then 1 else 0);
         following_count := following_count p
           - (if eqb_str (profile_id p) (follower_id r) then 1 else 0) |}
  end.

End FollowCounts.

(* ================================================================== *)
(** * lib/database.ts                                                  *)
(* ================================================================== *)

Module Database.

Import Supabase.
Local Open Scope promise_scope.

Record Availability := {
  available : option bool;
  availability_error : option PostgrestError
}.

Record Following := {
  is_following : bool;
  following_error : option PostgrestError
}.

Definition is_PGRST116 (e : PostgrestError) : bool :=
  eqb_str (code e) (js "PGRST116").

(** The reading of the lookup's [{ data, error }] in
    [checkUsernameAvailability]; a row is truthy, [null] is not. *)
Definition readAvailability (r : Response jsstring) : Availability :=
  if match error r with Some e => is_PGRST116 e | None => false end
  then {| available := Some true; availability_error := None |}
  else match data r with
       | Some _ => {| available := Some false; availability_error := None |}
       | None => {| available := None; availability_error := error r |}
       end.

(** [profileOperations.checkUsernameAvailability] *)
Definition checkUsernameAvailability `{Runtime} (name : jsstring)
    : Promise Availability :=
  r <- selectProfileByUsername (toLowerCase name) ;;
  resolve (readAvailability r).

(** [followOperations.followUser] *)
Definition followUser (followingId : jsstring) : Promise (Response FollowRow) :=
  user <- getUser ;;
  match user with
  | None => throw (js "Not authenticated")
  | Some u =>
      r <- insertFollow {| follower_id := uid u; following_id := followingId |} ;;
      resolve r
  end.

(** [followOperations.unfollowUser]; the result is [{ error }]. *)
Definition unfollowUser (followingId : jsstring)
    : Promise (option PostgrestError) :=
  user <- getUser ;;
  match user with
  | None => throw (js "Not authenticated")
  | Some u =>
      r <- deleteFollow (uid u) followingId ;;
      resolve (error r)
  end.

(** The reading of the lookup's [{ data, error }] in [isFollowing]:
    [!!data], and [error && error.code !== 'PGRST116' ? error : null]. *)
Definition readFollowing (r : Response FollowRow) : Following :=
  {| is_following := match data r with Some _ => true | None => false end;
     following_error :=
       match error r with
       | Some e => if negb (is_PGRST116 e) then Some e else None
       | None => None
       end |}.

(** [followOperations.isFollowing] *)
Definition isFollowing (followingId : jsstring) : Promise Following :=
  user <- getUser ;;
  match user with
  | None => resolve {| is_following := false; following_error := None |}
  | Some u =>
      r <- selectFollow (uid u) followingId ;;
      resolve (readFollowing r)
  end.

End Database.

(* ================================================================== *)
(** * components/SignupFlow.tsx: the wizard                            *)
(* ================================================================== *)

Module SignupFlow.

Inductive AuthMode := Welcome | Login | Signup.

Inductive SignupStep :=
  | Email | Password | ConfirmPassword | Name | Gender | Age | Country
  | Username | Interests.

Record AuthData := {
  email : jsstring;
  password : jsstring;
  confirmPassword : jsstring;
  firstName : jsstring;
  lastName : jsstring;
  gender : jsstring;
  age : jsstring;
  country : jsstring;
  username : jsstring;
  interests : list jsstring
}.

Definition emptyAuthData : AuthData :=
  {| email := []; password := []; confirmPassword := []; firstName := [];
     lastName := []; gender := []; age := []; country := []; username := [];
     interests := [] |}.

(** The [useState] cells of the component that the wizard logic reads or
    writes. *)
Record State := {
  authMode : AuthMode;
  signupStep : SignupStep;
  usernameAvailable : option bool;
  checkingUsername : bool;
  isLoading : bool;
  authData : AuthData
}.

Definition initialState : State :=
  {| authMode := Welcome; signupStep := Email; usernameAvailable := None;
     checkingUsername := false; isLoading := false;
     authData := emptyAuthData |}.

Definition setAuthMode (m : AuthMode) (s : State) : State :=
  {| authMode := m; signupStep := signupStep s;
     usernameAvailable := usernameAvailable s;
     checkingUsername := checkingUsername s; isLoading := isLoading s;
     authData := authData s |}.

Definition setSignupStep (st : SignupStep) (s : State) : State :=
  {| authMode := authMode s; signupStep := st;
     usernameAvailable := usernameAvailable s;
     checkingUsername := checkingUsername s; isLoading := isLoading s;
     authData := authData s |}.

Definition setUsernameAvailable (a : option bool) (s : State) : State :=
  {| authMode := authMode s; signupStep := signupStep s;
     usernameAvailable := a;
     checkingUsername := checkingUsername s; isLoading := isLoading s;
     authData := authData s |}.

Definition setCheckingUsername (b : bool) (s : State) : State :=
  {| authMode := authMode s; signupStep := signupStep s;
     usernameAvailable := usernameAvailable s;
     checkingUsername := b; isLoading := isLoading s;
     authData := authData s |}.

Definition setIsLoading (b : bool) (s : State) : State :=
  {| authMode := authMode s; signupStep := signupStep s;
     usernameAvailable := usernameAvailable s;
     checkingUsername := checkingUsername s; isLoading := b;
     authData := authData s |}.

Definition setAuthData (d : AuthData) (s : State) : State :=
  {| authMode := authMode s; signupStep := signupStep s;
     usernameAvailable := usernameAvailable s;
     checkingUsername := checkingUsername s; isLoading := isLoading s;
     authData := d |}.

(** A well-typed call [updateAuthData(field, value)]. *)
Inductive Update :=
  | SetEmail (v : jsstring)
  | SetPassword (v : jsstring)
  | SetConfirmPassword (v : jsstring)
  | SetFirstName (v : jsstring)
  | SetLastName (v : jsstring)
  | SetGender (v : jsstring)
  | SetAge (v : jsstring)
  | SetCountry (v : jsstring)
  | SetUsername (v : jsstring)
  | SetInterests (v : list jsstring).

(** [prev => ({ ...prev, [field]: value })] *)
Definition assign (u : Update) (prev : AuthData) : AuthData :=
  let mk e p c f l g a co us i :=
    {| email := e; password := p; confirmPassword := c; firstName := f;
       lastName := l; gender := g; age := a; country := co; username := us;
       interests := i |} in
  let '{| email := e; password := p; confirmPassword := c; firstName := f;
          lastName := l; gender := g; age := a; country := co;
          username := us; interests := i |} := prev in
  match u with
  | SetEmail v => mk v p c f l g a co us i
  | SetPassword v => mk e v c f l g a co us i
  | SetConfirmPassword v => mk e p v f l g a co us i
  | SetFirstName v => mk e p c v l g a co us i
  | SetLastName v => mk e p c f v g a co us i
  | SetGender v => mk e p c f l v a co us i
  | SetAge v => mk e p c f l g v co us i
  | SetCountry v => mk e p c f l g a v us i
  | SetUsername v => mk e p c f l g a co v i
  | SetInterests v => mk e p c f l g a co us v
  end.

Definition updateAuthData (u : Update) (s : State) : State :=
  setAuthData (assign u (authData s)) s.

Local Open Scope Z_scope.

Definition len (s : jsstring) : Z := Z.of_nat (List.length s).

Definition canProceedToNext (s : State) : bool :=
  let d := authData s in
  match signupStep s with
  | Email => includesUnit (email d) 64 && (0 <? len (email d))
  | Password => 8 <=? len (password d)
  | ConfirmPassword =>
      eqb_str (confirmPassword d) (password d) && (0 <? len (confirmPassword d))
  | Name => (0 <? len (firstName d)) && (0 <? len (lastName d))
  | Gender => 0 <? len (gender d)
  | Age =>
      (0 <? len (age d)) && geNum (parseInt (age d)) 13
      && leNum (parseInt (age d)) 120
  | Country => 0 <? len (country d)
  | Username =>
      (3 <=? len (username d))
      && match usernameAvailable s with Some true => true | _ => false end
  | Interests => 0 <? Z.of_nat (List.length (interests d))
  end.

Definition step_eqb (a b : SignupStep) : bool :=
  match a, b with
  | Email, Email | Password, Password | ConfirmPassword, ConfirmPassword
  | Name, Name | Gender, Gender | Age, Age | Country, Country
  | Username, Username | Interests, Interests => true
  | _, _ => false
  end.

Definition steps : list SignupStep :=
  [Email; Password; ConfirmPassword; Name; Gender; Age; Country; Username;
   Interests].

(** [steps.indexOf(x)]: the first index of [x], or -1. *)
Fixpoint indexFrom (i : Z) (l : list SignupStep) (x : SignupStep) : Z :=
  match l with
  | [] => -1
  | y :: r => if step_eqb y x then i else indexFrom (i + 1) r x
  end.

Definition indexOf (l : list SignupStep) (x : SignupStep) : Z :=
  indexFrom 0 l x.

(** [steps[i]]: [None] is [undefined]. *)
Definition at_index (l : list SignupStep) (i : Z) : option SignupStep :=
  if i <? 0 then None else nth_error l (Z.to_nat i).


(** ** Submitting, going forward and back *)

(** The third argument of [signUp]. *)
Record Metadata := {
  meta_firstName : jsstring;
  meta_lastName : jsstring;
  meta_username : jsstring;
  meta_gender : jsstring;
  meta_age : jsstring;
  meta_country : jsstring;
  meta_interests : list jsstring
}.

Inductive Notice :=
  | SignupFailed (message : jsstring)
  | UnexpectedSignupError
  | AccountCreated.

(** What the handlers do besides setting state. *)
Inductive Effect :=
  | SignUp (mail pass : jsstring) (meta : Metadata)
  | Alert (n : Notice)
  | ConsoleError
  | ConsoleLog.

(** How the awaited [signUp] call ends: with [{ data, error }] ([error] given
    by its message), or by throwing. *)
Inductive SignUpOutcome :=
  | SignUpResolved (userEmail : option jsstring) (error : option jsstring)
  | SignUpRejected.

Definition resetSignup (s : State) : State :=
  setAuthData emptyAuthData
    (setCheckingUsername false
       (setUsernameAvailable None (setSignupStep Email s))).

(** The part of [goToNextStep] after [await signUp(...)]; it runs on the
    state of the moment the call settles. *)
Definition signUpSettled (o : SignUpOutcome) (s : State) : State * list Effect :=
  let '(s1, fx) :=
    match o with
    | SignUpResolved _ (Some msg) =>
        (s, [ConsoleError; Alert (SignupFailed msg)])
    | SignUpResolved _ None =>
        (resetSignup (setAuthMode Welcome s), [ConsoleLog; Alert AccountCreated])
    | SignUpRejected =>
        (s, [ConsoleError; Alert UnexpectedSignupError])
    end in
  (setIsLoading false s1, fx).

Definition signUpCall (d : AuthData) : Effect :=
  SignUp (email d) (password d)
    {| meta_firstName := firstName d; meta_lastName := lastName d;
       meta_username := username d; meta_gender := gender d;
       meta_age := age d; meta_country := country d;
       meta_interests := interests d |}.

(** [goToNextStep], with the outcome of [signUp] for the case that it is
    called.  [steps[currentIndex + 1]] is never [undefined] under the guard
    (lemma [next_index_defined]). *)
Definition goToNextStep (o : SignUpOutcome) (s : State) : State * list Effect :=
  let currentIndex := indexOf steps (signupStep s) in
  if currentIndex <? Z.of_nat (List.length steps) - 1 then
    match at_index steps (currentIndex + 1) with
    | Some st => (setSignupStep st s, [])
    | None => (s, [])
    end
  else
    let '(s', fx) := signUpSettled o (setIsLoading true s) in
    (s', signUpCall (authData s) :: fx).

(** [goToPreviousStep]; [steps[currentIndex - 1]] is never [undefined]
    under the guard (lemma [previous_index_defined]). *)
Definition goToPreviousStep (s : State) : State :=
  let currentIndex := indexOf steps (signupStep s) in
  if 0 <? currentIndex then
    match at_index steps (currentIndex - 1) with
    | Some st => setSignupStep st s
    | None => s
    end
  else setAuthMode Welcome s.

Definition handleInterestToggle (interestId : jsstring) (s : State) : State :=
  let currentInterests := interests (authData s) in
  if includes currentInterests interestId
  then updateAuthData
         (SetInterests
            (filter (fun i => negb (eqb_str i interestId)) currentInterests)) s
  else updateAuthData (SetInterests (currentInterests ++ [interestId])) s.

(** The button at the bottom in signup mode: [onClick] is [goToNextStep],
    and it is [disabled] when [!canProceedToNext() || isLoading]. *)
Definition clickContinue (o : SignUpOutcome) (s : State) : State * list Effect :=
  if negb (canProceedToNext s) || isLoading s then (s, [])
  else goToNextStep o s.

(** What the user does on a step, and a run of such actions with the
    effects they cause; [Verdict] stands for a user-name check that has
    settled. *)
Inductive Action :=
  | Enter (u : Update)
  | Toggle (interestId : jsstring)
  | Verdict (a : option bool)
  | Continue.

Definition perform (o : SignUpOutcome) (acc : State * list Effect) (a : Action)
    : State * list Effect :=
  let (s, fx) := acc in
  match a with
  | Enter u => (updateAuthData u s, fx)
  | Toggle i => (handleInterestToggle i s, fx)
  | Verdict v => (setUsernameAvailable v s, fx)
  | Continue => let (s', fx') := clickContinue o s in (s', fx ++ fx')
  end.

(** ** The user-name check in time

    The two copies of the component differ in [checkUsernameAvailability]
    only: one awaits a 500 ms timer and consults a fixed list, the other
    awaits a lookup in [profiles]. *)
Inductive Build := MockCheck | ProfilesCheck.

(** The pending [setTimeout] of the debounce effect, with the user name its
    callback closes over. *)
Record Timer := { fireAt : Z; arg : jsstring }.

(** A call of [checkUsernameAvailability] suspended at its [await]. *)
Record Check := { checkId : nat; asked : jsstring; issuedAt : Z }.

Record Session := {
  ui : State;
  now : Z;
  debounceTimeout : option Timer;
  inFlight : list Check;
  nextCheck : nat;
  queries : list (Z * jsstring)
}.

Definition setUi (u : State) (x : Session) : Session :=
  {| ui := u; now := now x; debounceTimeout := debounceTimeout x;
     inFlight := inFlight x; nextCheck := nextCheck x; queries := queries x |}.

Definition setNow (t : Z) (x : Session) : Session :=
  {| ui := ui x; now := t; debounceTimeout := debounceTimeout x;
     inFlight := inFlight x; nextCheck := nextCheck x; queries := queries x |}.

Definition setDebounce (d : option Timer) (x : Session) : Session :=
  {| ui := ui x; now := now x; debounceTimeout := d;
     inFlight := inFlight x; nextCheck := nextCheck x; queries := queries x |}.

Definition setInFlight (l : list Check) (x : Session) : Session :=
  {| ui := ui x; now := now x; debounceTimeout := debounceTimeout x;
     inFlight := l; nextCheck := nextCheck x; queries := queries x |}.

Definition open (u : State) : Session :=
  {| ui := u; now := 0; debounceTimeout := None; inFlight := [];
     nextCheck := 0%nat; queries := [] |}.

(** How the awaited lookup of the [profiles] copy ends. *)
Inductive Lookup :=
  | Responded (r : Supabase.Response jsstring)
  | Threw.

Definition blacklist : list jsstring := [js "admin"; js "user"; js "test"].

(** The value a settled check stores with [setUsernameAvailable]: in the
    mock copy [!['admin', 'user', 'test'].includes(username.toLowerCase())],
    in the other the reading of the lookup ([None] is [null]). *)
Definition mockVerdict `{Runtime} (c : Check) : option bool :=
  Some (negb (includes blacklist (toLowerCase (asked c)))).

Definition lookupVerdict (r : Lookup) : option bool :=
  match r with
  | Responded resp =>
      if match Supabase.error resp with
         | Some e => eqb_str (Supabase.code e) (js "PGRST116")
         | None => false
         end
      then Some true
      else match Supabase.data resp with
           | Some _ => Some false
           | None => None
           end
  | Threw => None
  end.

(** The continuation of a check after its [await], [finally] included. *)
Definition settle (v : option bool) (u : State) : State :=
  setCheckingUsername false (setUsernameAvailable v u).

(** [checkUsernameAvailability(name)] up to its [await], at time [t]. *)
Definition checkUsernameAvailability `{Runtime} (name : jsstring) (t : Z)
    (x : Session) : Session :=
  if len name <? 3 then setUi (setUsernameAvailable None (ui x)) x
  else
    {| ui := setCheckingUsername true (ui x);
       now := now x;
       debounceTimeout := debounceTimeout x;
       inFlight := inFlight x
                   ++ [{| checkId := nextCheck x; asked := name; issuedAt := t |}];
       nextCheck := S (nextCheck x);
       queries := queries x ++ [(t, toLowerCase name)] |}.

(** The effect on [[authData.username, signupStep]]: the clean-up of the
    previous run, then the new run. *)
Definition usernameEffect (x : Session) : Session :=
  let name := username (authData (ui x)) in
  if step_eqb (signupStep (ui x)) Username && negb (eqb_str name [])
  then setDebounce (Some {| fireAt := now x + 500; arg := name |}) x
  else setDebounce None x.

Inductive Event :=
  | Keystroke (v : jsstring)
  | Elapse (dt : Z)
  | Answer (i : nat) (r : Lookup).

(** [onChange] of the user-name input: the effect runs when the value is a
    new one. *)
Definition keystroke (v : jsstring) (x : Session) : Session :=
  let old := username (authData (ui x)) in
  let x1 := setUi (updateAuthData (SetUsername v) (ui x)) x in
  if eqb_str v old then x1 else usernameEffect x1.

(** The mock's timers that have run out by time [t] settle, oldest first. *)
Fixpoint settleDue `{Runtime} (t : Z) (pending : list Check) (u : State)
    : list Check * State :=
  match pending with
  | [] => ([], u)
  | c :: rest =>
      if issuedAt c + 500 <=? t
      then settleDue t rest (settle (mockVerdict c) u)
      else let (keep, u') := settleDue t rest u in (c :: keep, u')
  end.

Definition runTimers `{Runtime} (b : Build) (t : Z) (x : Session) : Session :=
  match b with
  | MockCheck =>
      let (keep, u) := settleDue t (inFlight x) (ui x) in
      setUi u (setInFlight keep x)
  | ProfilesCheck => x
  end.

(** Time passes up to [now + dt]; the debounce timer fires on its way if it
    is due. *)
Definition elapse `{Runtime} (b : Build) (dt : Z) (x : Session) : Session :=
  if dt <? 0 then x else
  let t := now x + dt in
  match debounceTimeout x with
  | Some tm =>
      if fireAt tm <=? t
      then
        let x1 := runTimers b (fireAt tm) x in
        let x2 := checkUsernameAvailability (arg tm) (fireAt tm)
                    (setDebounce None x1) in
        setNow t (runTimers b t x2)
      else setNow t (runTimers b t x)
  | None => setNow t (runTimers b t x)
  end.

(** The lookup of check [i] settles (only the [profiles] copy has lookups
    that settle on their own account). *)
Definition answer `{Runtime} (b : Build) (i : nat) (r : Lookup) (x : Session)
    : Session :=
  match b with
  | MockCheck => x
  | ProfilesCheck =>
      match find (fun c => Nat.eqb (checkId c) i) (inFlight x) with
      | Some c =>
          setUi (settle (lookupVerdict r) (ui x))
            (setInFlight
               (filter (fun c' => negb (Nat.eqb (checkId c') i)) (inFlight x)) x)
      | None => x
      end
  end.

Definition handle `{Runtime} (b : Build) (x : Session) (e : Event) : Session :=
  match e with
  | Keystroke v => keystroke v x
  | Elapse dt => elapse b dt x
  | Answer i r => answer b i r x
  end.

Definition run `{Runtime} (b : Build) (x : Session) (es : list Event) : Session :=
  fold_left (handle b) es x.

(** Keystrokes [v] each followed by a pause [dt]. *)
Fixpoint burst (ks : list (jsstring * Z)) : list Event :=
  match ks with
  | [] => []
  | (v, dt) :: rest => Keystroke v :: Elapse dt :: burst rest
  end.

End SignupFlow.

(* ================================================================== *)
(** * The whole component: what the user can do, and what comes back   *)
(* ================================================================== *)

(** The component of components/SignupFlow.tsx as its user meets it, from
    the first render in which the auth context reports no user and is not
    loading (otherwise the component shows a spinner or leaves for
    /dashboard, and none of its controls is there).  [Build] chooses the
    copy whose [checkUsernameAvailability] is in use; the JSX of the mock
    copy is cut after the email step (its comment: truncated for brevity,
    but includes all the signup flow), so that copy offers a part of the
    gestures below. *)

Module Screen.

Import SignupFlow.
Local Open Scope Z_scope.

(** The options of the two [Select]s and the ids of the interest cards. *)
Definition genders : list jsstring :=
  [js "male"; js "female"; js "non-binary"; js "prefer-not-to-say"].

Definition countries : list jsstring :=
  [js "United States"; js "Canada"; js "United Kingdom"; js "Germany";
   js "France"; js "Italy"; js "Spain"; js "Netherlands"; js "Australia";
   js "Japan"; js "South Korea"; js "India"; js "Brazil"; js "Mexico";
   js "Argentina"; js "Other"].

Definition interestIds : list jsstring :=
  [js "music"; js "anime"; js "movies"; js "books"; js "discussions"].

Definition mode_eqb (a b : AuthMode) : bool :=
  match a, b with
  | Welcome, Welcome | Login, Login | Signup, Signup => true
  | _, _ => false
  end.

(** How the awaited [signIn] call ends. *)
Inductive SignInOutcome :=
  | SignInResolved (userEmail : option jsstring) (error : option jsstring)
  | SignInRejected.

Inductive LoginNotice :=
  | LoginFailed (message : jsstring)
  | UnexpectedLoginError.

(** What the component does to the outside. *)
Inductive Output :=
  | FromSignup (e : Effect)
  | SignIn (mail pass : jsstring)
  | LoginAlert (n : LoginNotice)
  | LoginConsoleError
  | LoginConsoleLog.

(** An auth call that has been made and has not settled. *)
Inductive Call := AwaitSignUp | AwaitSignIn.

Definition call_eqb (a b : Call) : bool :=
  match a, b with
  | AwaitSignUp, AwaitSignUp | AwaitSignIn, AwaitSignIn => true
  | _, _ => false
  end.

(** [handleLogin] up to its [await]. *)
Definition handleLogin (s : State) : State * list Output * list Call :=
  let d := authData s in
  if eqb_str (email d) [] || eqb_str (password d) [] then (s, [], [])
  else (setIsLoading true s, [SignIn (email d) (password d)], [AwaitSignIn]).

(** [handleLogin] after its [await], [finally] included. *)
Definition signInSettled (o : SignInOutcome) (s : State) : State * list Output :=
  (setIsLoading false s,
   match o with
   | SignInResolved _ (Some msg) =>
       [LoginConsoleError; LoginAlert (LoginFailed msg)]
   | SignInResolved _ None => [LoginConsoleLog]
   | SignInRejected => [LoginConsoleError; LoginAlert UnexpectedLoginError]
   end).

(** [goToNextStep] up to its [await]; the rest is [signUpSettled]. *)
Definition beginNextStep (s : State) : State * list Output * list Call :=
  let currentIndex := indexOf steps (signupStep s) in
  if currentIndex <? Z.of_nat (List.length steps) - 1 then
    match at_index steps (currentIndex + 1) with
    | Some st => (setSignupStep st s, [], [])
    | None => (s, [], [])
    end
  else (setIsLoading true s, [FromSignup (signUpCall (authData s))],
        [AwaitSignUp]).

(** [disabled] of the button at the bottom, and of the submit button of the
    login form. *)
Definition bottomDisabled (s : State) : bool :=
  (mode_eqb (authMode s) Signup && negb (canProceedToNext s)) || isLoading s.

Definition submitDisabled (s : State) : bool :=
  isLoading s || eqb_str (email (authData s)) []
  || eqb_str (password (authData s)) [].

(** The control that makes the call [updateAuthData(field, value)] is on
    the page: the two inputs of the login form, and in signup mode the
    controls of the current step; a [Select] only hands over its options.
    (The age input, of type number, hands over fewer strings than any.) *)
Definition offered (s : State) (u : Update) : bool :=
  match authMode s with
  | Welcome => false
  | Login =>
      match u with
      | SetEmail _ | SetPassword _ => true
      | _ => false
      end
  | Signup =>
      match signupStep s, u with
      | Email, SetEmail _ => true
      | Password, SetPassword _ => true
      | ConfirmPassword, SetConfirmPassword _ => true
      | Name, SetFirstName _ => true
      | Name, SetLastName _ => true
      | Gender, SetGender v => includes genders v
      | Age, SetAge _ => true
      | Country, SetCountry v => includes countries v
      | Username, SetUsername _ => true
      | _, _ => false
      end
  end.

(** The page: the state cells with the timers of the user-name check, the
    auth calls under way, and what has been done to the outside so far. *)
Record Page := {
  page : Session;
  awaiting : list Call;
  outputs : list Output
}.

Definition boot : Page :=
  {| page := open initialState; awaiting := []; outputs := [] |}.

(** After a render the effect on [[authData.username, signupStep]] runs if
    one of the two has changed. *)
Definition commit (before : State) (x : Session) : Session :=
  if eqb_str (username (authData (ui x))) (username (authData before))
     && step_eqb (signupStep (ui x)) (signupStep before)
  then x else usernameEffect x.

(** A handler that sets state cells, then the render. *)
Definition render (f : State -> State) (x : Session) : Session :=
  commit (ui x) (setUi (f (ui x)) x).

Definition withPage (x : Session) (p : Page) : Page :=
  {| page := x; awaiting := awaiting p; outputs := outputs p |}.

(** A handler that may start an auth call. *)
Definition start (h : State -> State * list Output * list Call) (p : Page)
    : Page :=
  let '(s', out, calls) := h (ui (page p)) in
  {| page := render (fun _ => s') (page p);
     awaiting := awaiting p ++ calls;
     outputs := outputs p ++ out |}.

Fixpoint removeCall (c : Call) (l : list Call) : list Call :=
  match l with
  | [] => []
  | c' :: rest => if call_eqb c c' then rest else c' :: removeCall c rest
  end.

(** An awaited call settles and its continuation runs. *)
Definition resume (c : Call) (k : State -> State * list Output) (p : Page)
    : Page :=
  if existsb (call_eqb c) (awaiting p) then
    let (s', out) := k (ui (page p)) in
    {| page := render (fun _ => s') (page p);
       awaiting := removeCall c (awaiting p);
       outputs := outputs p ++ out |}
  else p.

Inductive Gesture :=
  | PressCreateAccount
  | PressSignIn
  | PressBack
  | PressBottom
  | SubmitLoginForm
  | Input (u : Update)
  | PressInterest (interestId : jsstring)
  | Wait (dt : Z)
  | LookupAnswers (i : nat) (r : Lookup)
  | SignUpSettles (o : SignUpOutcome)
  | SignInSettles (o : SignInOutcome).

(** What a gesture does; one made on a control that is not on the page, or
    is disabled, does nothing. *)
Definition act `{Runtime} (b : Build) (p : Page) (g : Gesture) : Page :=
  let s := ui (page p) in
  match g with
  | PressCreateAccount =>
      match authMode s with
      | Welcome =>
          withPage
            (render (fun s => resetSignup
                                (setSignupStep Email (setAuthMode Signup s)))
               (page p)) p
      | _ => p
      end
  | PressSignIn =>
      match authMode s with
      | Welcome => withPage (render (setAuthMode Login) (page p)) p
      | _ => p
      end
  | PressBack =>
      match authMode s with
      | Welcome => p
      | Login => withPage (render (setAuthMode Welcome) (page p)) p
      | Signup => withPage (render goToPreviousStep (page p)) p
      end
  | PressBottom =>
      match authMode s with
      | Welcome => p
      | Login => if bottomDisabled s then p else start handleLogin p
      | Signup => if bottomDisabled s then p else start beginNextStep p
      end
  | SubmitLoginForm =>
      match authMode s with
      | Login => if submitDisabled s then p else start handleLogin p
      | _ => p
      end
  | Input u =>
      if offered s u then withPage (render (updateAuthData u) (page p)) p
      else p
  | PressInterest i =>
      match authMode s, signupStep s with
      | Signup, Interests =>
          if includes interestIds i
          then withPage (render (handleInterestToggle i) (page p)) p
          else p
      | _, _ => p
      end
  | Wait dt => withPage (elapse b dt (page p)) p
  | LookupAnswers i r => withPage (answer b i r (page p)) p
  | SignUpSettles o =>
      resume AwaitSignUp
        (fun s => let (s', fx) := signUpSettled o s in
                  (s', map FromSignup fx)) p
  | SignInSettles o => resume AwaitSignIn (signInSettled o) p
  end.

Definition play `{Runtime} (b : Build) (p : Page) (gs : list Gesture) : Page :=
  fold_left (act b) gs p.

(** The condition of a step on the form alone: [canProceedToNext] without
    the verdict of the user-name check. *)
Definition fieldsOk (st : SignupStep) (d : AuthData) : bool :=
  match st with
  | Email => includesUnit (email d) 64 && (0 <? len (email d))
  | Password => 8 <=? len (password d)
  | ConfirmPassword =>
      eqb_str (confirmPassword d) (password d) && (0 <? len (confirmPassword d))
  | Name => (0 <? len (firstName d)) && (0 <? len (lastName d))
  | Gender => 0 <? len (gender d)
  | Age =>
      (0 <? len (age d)) && geNum (parseInt (age d)) 13
      && leNum (parseInt (age d)) 120
  | Country => 0 <? len (country d)
  | Username => 3 <=? len (username d)
  | Interests => 0 <? Z.of_nat (List.length (interests d))
  end.

(** The red line under the age input:
    [authData.age && (parseInt(age) < 13 || parseInt(age) > 120)]. *)
Definition ageWarning (s : State) : bool :=
  let a := age (authData s) in
  negb (eqb_str a [])
  && (match parseInt a with Some n => n <? 13 | None => false end
      || match parseInt a with Some n => 120 <? n | None => false end).

End Screen.

(* ================================================================== *)
(** * Notions about the whole component                                *)
(* ================================================================== *)

Module PageNotions.

Import SignupFlow Screen.
Local Open Scope Z_scope.

(** The two states agree on the mode, the step, the form and the loading
    flag: they differ in the verdict and the spinner at most. *)
Definition sameForm (s s' : State) : Prop :=
  authMode s' = authMode s /\ signupStep s' = signupStep s
  /\ authData s' = authData s /\ isLoading s' = isLoading s.

Definition earlierOk (s : State) : Prop :=
  authMode s = Signup ->
  forall st, indexOf steps st < indexOf steps (signupStep s) ->
             fieldsOk st (authData s) = true.

Definition choicesOk (d : AuthData) : Prop :=
  (gender d = [] \/ In (gender d) genders)
  /\ (country d = [] \/ In (country d) countries)
  /\ NoDup (interests d) /\ incl (interests d) interestIds.

Definition stateOk (s : State) : Prop :=
  earlierOk s
  /\ (authMode s <> Signup -> signupStep s = Email)
  /\ choicesOk (authData s).

Definition wellFormed (p : Page) : Prop :=
  stateOk (ui (page p))
  /\ (isLoading (ui (page p)) = true <-> awaiting p <> [])
  /\ (List.length (awaiting p) <= 1)%nat.

Definition validCall (o : Output) : Prop :=
  match o with
  | FromSignup (SignUp mail pass m) =>
      exists d, (forall st, fieldsOk st d = true) /\ choicesOk d
                /\ signUpCall d = SignUp mail pass m
  | SignIn mail pass => mail <> [] /\ pass <> []
  | _ => True
  end.

Definition sound (p : Page) : Prop :=
  wellFormed p /\ Forall validCall (outputs p).


(** Two queries are at least the settling delay apart. *)
Definition apart (a b : Z * jsstring) : Prop := fst a + 500 <= fst b.

(** The timers and the log of queries are in order: no query is logged
    ahead of the clock, queries are [apart], a pending debounce timer is
    not overdue and fires 500 or more after every query so far, and the
    spinner is on only while a check is under way. *)
Definition paced (x : Session) : Prop :=
  Forall (fun q => fst q <= now x) (queries x)
  /\ StronglySorted apart (queries x)
  /\ (forall tm, debounceTimeout x = Some tm ->
        now x < fireAt tm
        /\ Forall (fun q => fst q + 500 <= fireAt tm) (queries x))
  /\ (checkingUsername (ui x) = true -> inFlight x <> []).

(** At most one check is under way, it was issued less than 500 ago, and a
    pending debounce timer fires after it has settled. *)
Definition solo (x : Session) : Prop :=
  (List.length (inFlight x) <= 1)%nat
  /\ Forall (fun c => issuedAt c <= now x < issuedAt c + 500) (inFlight x)
  /\ (forall tm, debounceTimeout x = Some tm ->
        Forall (fun c => issuedAt c + 500 <= fireAt tm) (inFlight x)).

Definition isCall (o : Output) : bool :=
  match o with
  | FromSignup (SignUp _ _ _) => true
  | SignIn _ _ => true
  | _ => false
  end.

(** Handlers that leave the spinner alone or turn it off. *)
Definition calm (f : State -> State) : Prop :=
  forall s, checkingUsername (f s) = true -> checkingUsername s = true.

(** A run through the nine steps; the lookup of the user name finds no
    row. *)
Definition signupGestures : list Gesture :=
  [ PressCreateAccount;
    Input (SetEmail (js "a@b.com")); PressBottom;
    Input (SetPassword (js "password123")); PressBottom;
    Input (SetConfirmPassword (js "password123")); PressBottom;
    Input (SetFirstName (js "Jo")); Input (SetLastName (js "Doe")); PressBottom;
    Input (SetGender (js "female")); PressBottom;
    Input (SetAge (js "25")); PressBottom;
    Input (SetCountry (js "Canada")); PressBottom;
    Input (SetUsername (js "uniqueName42")); Wait 500;
    LookupAnswers 0 (Responded (Supabase.failed Supabase.PGRST116));
    PressBottom;
    PressInterest (js "music"); PressBottom ].

(** The same run up to the user-name step, the name checked and found
    free. *)
Definition verifiedName : Page :=
  @play basicLatin ProfilesCheck boot (firstn 19 signupGestures).

End PageNotions.

(* ================================================================== *)
(** * Notions used to state the properties                             *)
(* ================================================================== *)

Module Notions.

Import Supabase SignupFlow.
Local Open Scope Z_scope.

(** A call failed when its promise rejected or its [error] is set. *)
Definition failure {A : Type} (o : Settled (Response A)) : Prop :=
  match o with
  | Rejected _ => True
  | Fulfilled r => error r <> None
  end.

Definition succeeded {A : Type} (o : Settled (Response A)) : Prop :=
  match o with
  | Rejected _ => False
  | Fulfilled r => error r = None
  end.

(** The edge from [u] to [f], and the pair [UNIQUE] is about. *)
Definition edge (u : User) (f : jsstring) : FollowRow :=
  {| follower_id := uid u; following_id := f |}.

Definition key (r : FollowRow) : jsstring * jsstring :=
  (follower_id r, following_id r).

Definition isSignUp (e : Effect) : bool :=
  match e with SignUp _ _ _ => true | _ => false end.

Definition isAlert (e : Effect) : bool :=
  match e with Alert _ => true | _ => false end.

(** [o] is an error returned or raised by [signUp]. *)
Definition signUpFailed (o : SignUpOutcome) : Prop :=
  match o with
  | SignUpResolved _ (Some _) => True
  | SignUpResolved _ None => False
  | SignUpRejected => True
  end.

(** [l.filter(id => id !== i)] *)
Definition without (i : jsstring) (l : list jsstring) : list jsstring :=
  filter (fun j => negb (eqb_str j i)) l.

(** ** Bursts of keystrokes *)

(** Every pause of the burst is shorter than the settling delay. *)
Definition spaced (ks : list (jsstring * Z)) : Prop :=
  Forall (fun k => 0 <= snd k < 500) ks.

(** Every value differs from the one before it, [v0] being the value before
    the first: these are changes of the field. *)
Fixpoint changing (v0 : jsstring) (vs : list jsstring) : Prop :=
  match vs with
  | [] => True
  | v :: rest => v <> v0 /\ changing v rest
  end.

Definition span (ks : list (jsstring * Z)) : Z :=
  fold_right (fun k acc => snd k + acc) 0 ks.

(** What decides when queries go out: the clock, the pending timer, the
    queries so far, the step and the user name; and how an event moves it.
    [timing_handle] shows that this is what [handle] does to it, whatever
    the copy of the component and whatever the checks answer. *)
Record Timing := {
  t_now : Z;
  t_debounce : option Timer;
  t_queries : list (Z * jsstring);
  t_step : SignupStep;
  t_name : jsstring
}.

Definition timing (x : Session) : Timing :=
  {| t_now := now x; t_debounce := debounceTimeout x; t_queries := queries x;
     t_step := signupStep (ui x); t_name := username (authData (ui x)) |}.

Definition advance `{Runtime} (T : Timing) (e : Event) : Timing :=
  match e with
  | Keystroke v =>
      if eqb_str v (t_name T) then T
      else
        {| t_now := t_now T;
           t_debounce :=
             if step_eqb (t_step T) Username && negb (eqb_str v [])
             then Some {| fireAt := t_now T + 500; arg := v |} else None;
           t_queries := t_queries T; t_step := t_step T; t_name := v |}
  | Elapse dt =>
      if dt <? 0 then T else
      let t := t_now T + dt in
      match t_debounce T with
      | Some tm =>
          if fireAt tm <=? t
          then {| t_now := t; t_debounce := None;
                  t_queries :=
                    if len (arg tm) <? 3 then t_queries T
                    else t_queries T ++ [(fireAt tm, toLowerCase (arg tm))];
                  t_step := t_step T; t_name := t_name T |}
          else {| t_now := t; t_debounce := Some tm; t_queries := t_queries T;
                  t_step := t_step T; t_name := t_name T |}
      | None =>
          {| t_now := t; t_debounce := None; t_queries := t_queries T;
             t_step := t_step T; t_name := t_name T |}
      end
  | Answer _ _ => T
  end.

(** A session that starts on the user-name step with an empty form. *)
Definition onUsernameStep : Session :=
  open (setSignupStep Username (setAuthMode Signup initialState)).

(** "Every change to the user name issues exactly one query, 500 after the
    keystroke." *)
Definition EveryChangeQueries `{Runtime} (b : Build) : Prop :=
  forall v, v <> [] ->
    queries (run b onUsernameStep [Keystroke v; Elapse 500]) =
    [(500, toLowerCase v)].

(** "The result of a check never overwrites the verdict once a more recent
    query has gone out." *)
Definition StaleNeverOverwrites `{Runtime} (b : Build) : Prop :=
  forall (es : list Event) (i : nat) (r : Lookup) (c : Check),
    let x := run b onUsernameStep es in
    find (fun c' => Nat.eqb (checkId c') i) (inFlight x) = Some c ->
    (exists q, In q (queries x) /\ issuedAt c < fst q) ->
    usernameAvailable (ui (handle b x (Answer i r))) = usernameAvailable (ui x).

End Notions.

(* ================================================================== *)
(** * Concrete backends and forms                                      *)
(* ================================================================== *)

Module Fixtures.

Import Supabase SignupFlow Notions.

(** Two profiles, and backends where the first is signed in or nobody is. *)
Definition ann : User := {| uid := js "ann" |}.

Definition twoProfiles : list ProfileRow :=
  [ {| id := js "ann"; Supabase.username := js "ann"; is_private := false |};
    {| id := js "bob"; Supabase.username := js "admin"; is_private := false |} ].

(** The same with Bob's profile private. *)
Definition bobPrivate : list ProfileRow :=
  [ {| id := js "ann"; Supabase.username := js "ann"; is_private := false |};
    {| id := js "bob"; Supabase.username := js "admin"; is_private := true |} ].

Definition signedIn (fs : list FollowRow) : Backend :=
  {| session := Some ann; profiles := twoProfiles; follows := fs;
     outage := None; sent := [] |}.

Definition signedOut (fs : list FollowRow) : Backend :=
  {| session := None; profiles := twoProfiles; follows := fs;
     outage := None; sent := [] |}.

(** A state of the wizard on step [st], and one on the age step whose age
    field holds [v]. *)
Definition onStep (st : SignupStep) : State :=
  setSignupStep st (setAuthMode Signup initialState).

Definition atAge (v : jsstring) : State :=
  updateAuthData (SetAge v) (onStep Age).

(** A filled-in form on the last step (the end-to-end example of the
    specification). *)
Definition example : State :=
  {| authMode := Signup; signupStep := Interests;
     usernameAvailable := Some true; checkingUsername := false;
     isLoading := false;
     authData :=
       {| email := js "a@b.com"; password := js "password123";
          confirmPassword := js "password123"; firstName := js "Jo";
          lastName := js "Doe"; gender := js "female"; age := js "25";
          country := js "Canada"; username := js "uniqueName42";
          interests := [js "music"] |} |}.

(** The same form entered step by step from the first step. *)
Definition script : list Action :=
  [ Enter (SetEmail (js "a@b.com")); Continue;
    Enter (SetPassword (js "password123")); Continue;
    Enter (SetConfirmPassword (js "password123")); Continue;
    Enter (SetFirstName (js "Jo")); Enter (SetLastName (js "Doe")); Continue;
    Enter (SetGender (js "female")); Continue;
    Enter (SetAge (js "25")); Continue;
    Enter (SetCountry (js "Canada")); Continue;
    Enter (SetUsername (js "uniqueName42")); Verdict (Some true); Continue;
    Toggle (js "music"); Continue ].

End Fixtures.

(* ================================================================== *)
(** * Facts about the built-ins                                        *)
(* ================================================================== *)

Module JsFacts.

Lemma eqb_str_eq (a b : jsstring) : eqb_str a b = true <-> a = b.
Proof.
  unfold eqb_str. destruct (list_eq_dec N.eq_dec a b); split; congruence.
Qed.

Lemma eqb_str_refl (a : jsstring) : eqb_str a a = true.
Proof. now apply eqb_str_eq. Qed.

Lemma eqb_str_neq (a b : jsstring) : eqb_str a b = false <-> a <> b.
Proof.
  unfold eqb_str. destruct (list_eq_dec N.eq_dec a b); split; congruence.
Qed.

Lemma includes_In (xs : list jsstring) (x : jsstring) :
  includes xs x = true <-> In x xs.
Proof.
  unfold includes. rewrite existsb_exists. split.
  - intros [y [Hy E]]. apply eqb_str_eq in E. now subst.
  - intros H. exists x. split; [assumption | apply eqb_str_refl].
Qed.

Lemma parseInt_empty : parseInt [] = None.
Proof. reflexivity. Qed.

Lemma eqb_str_sym (a b : jsstring) : eqb_str a b = eqb_str b a.
Proof.
  destruct (eqb_str b a) eqn:E.
  - apply eqb_str_eq in E. subst. apply eqb_str_refl.
  - apply eqb_str_neq in E. apply eqb_str_neq. congruence.
Qed.

End JsFacts.

(* ================================================================== *)
(** * lib/database.ts: follow edges and user-name lookups              *)
(* ================================================================== *)

Module DatabaseFacts.

Import Supabase Database JsFacts Notions Fixtures.


Lemma edge_is_eq (a c : jsstring) (r : FollowRow) :
  edge_is a c r = true <-> r = {| follower_id := a; following_id := c |}.
Proof.
  unfold edge_is. destruct r as [x y]. simpl.
  rewrite andb_true_iff, !eqb_str_eq. split.
  - intros [-> ->]. reflexivity.
  - intros H. injection H as -> ->. auto.
Qed.

Lemma same_edge_edge_is (u : User) (f : jsstring) (r : FollowRow) :
  same_edge (edge u f) r = edge_is (uid u) f r.
Proof.
  unfold same_edge, edge_is, edge. simpl.
  now rewrite (eqb_str_sym (uid u)), (eqb_str_sym f).
Qed.

Lemma existsb_same_edge (u : User) (f : jsstring) (l : list FollowRow) :
  existsb (same_edge (edge u f)) l = existsb (edge_is (uid u) f) l.
Proof.
  induction l as [|r l IH]; simpl; [reflexivity|].
  now rewrite IH, same_edge_edge_is.
Qed.

(** [followUser], case by case. *)
Lemma followUser_eq (b : Backend) (f : jsstring) :
  followUser f b =
  match session b with
  | None => (Rejected (js "Not authenticated"), b)
  | Some u =>
      let b1 := record (InsertFollow (edge u f)) b in
      match outage b with
      | Some e => (Fulfilled (failed e), b1)
      | None =>
          if eqb_str (uid u) f then (Fulfilled (failed check_violation), b1)
          else if existsb (same_edge (edge u f)) (follows b)
          then (Fulfilled (failed unique_violation), b1)
          else if profile_exists b (uid u) && profile_exists b f
          then (Fulfilled (ok (edge u f)),
                setFollows (follows b ++ [edge u f]) b1)
          else (Fulfilled (failed foreign_key_violation), b1)
      end
  end.
Proof.
  unfold followUser, insertFollow, statement, await, getUser, resolve, throw,
    follows_write_policy, edge.
  destruct (session b) as [u|] eqn:Hs; [|reflexivity].
  cbn. rewrite Hs.
  destruct (outage b) as [e|]; [reflexivity|].
  rewrite eqb_str_refl. cbn.
  destruct (eqb_str (uid u) f); [reflexivity|].
  destruct (existsb _ (follows b)); [reflexivity|].
  unfold profile_exists. cbn.
  destruct (existsb _ (profiles b) && existsb _ (profiles b)); reflexivity.
Qed.

Lemma unfollowUser_eq (b : Backend) (f : jsstring) :
  unfollowUser f b =
  match session b with
  | None => (Rejected (js "Not authenticated"), b)
  | Some u =>
      let b1 := record (DeleteFollow (uid u) f) b in
      match outage b with
      | Some e => (Fulfilled (Some e), b1)
      | None =>
          (Fulfilled None,
           setFollows (filter (fun r => negb (edge_is (uid u) f r)) (follows b))
             b1)
      end
  end.
Proof.
  unfold unfollowUser, deleteFollow, statement, await, getUser, resolve, throw.
  destruct (session b) as [u|] eqn:Hs; [|reflexivity].
  cbn. destruct (outage b) as [e|]; [reflexivity|]. cbn.
  rewrite (filter_ext _ (fun r => negb (edge_is (uid u) f r)));
    [reflexivity|].
  intros r. unfold follows_write_policy, edge_is. cbn. rewrite Hs.
  destruct (eqb_str (follower_id r) (uid u)) eqn:E.
  - apply eqb_str_eq in E. rewrite E, eqb_str_refl. reflexivity.
  - cbn. now rewrite andb_false_r.
Qed.

Lemma isFollowing_eq (b : Backend) (f : jsstring) :
  isFollowing f b =
  match session b with
  | None => (Fulfilled {| is_following := false; following_error := None |}, b)
  | Some u =>
      let b1 := record (SelectFollow (uid u) f) b in
      match outage b with
      | Some e => (Fulfilled (readFollowing (failed e)), b1)
      | None =>
          (Fulfilled
             (readFollowing
                (single (filter (edge_is (uid u) f) (follows b)))), b1)
      end
  end.
Proof.
  unfold isFollowing, selectFollow, statement, await, getUser, resolve.
  destruct (session b) as [u|] eqn:Hs; [|reflexivity].
  cbn. destruct (outage b) as [e|]; [reflexivity|]. cbn.
  rewrite (filter_ext _ (edge_is (uid u) f)); [reflexivity|].
  intros r. unfold follows_select_policy, edge_is. cbn. rewrite Hs.
  destruct (eqb_str (follower_id r) (uid u)) eqn:E.
  - apply eqb_str_eq in E. rewrite E, eqb_str_refl. reflexivity.
  - now rewrite andb_false_r.
Qed.

(** Under [UNIQUE(follower_id, following_id)] a lookup by both columns
    finds the edge, once, or nothing. *)
Lemma lookup_unique (a c : jsstring) (l : list FollowRow) :
  NoDup (map key l) ->
  filter (edge_is a c) l =
  if existsb (edge_is a c) l
  then [{| follower_id := a; following_id := c |}] else [].
Proof.
  induction l as [|r l IH]; intros Hnd; [reflexivity|].
  simpl in Hnd. inversion Hnd as [|k ks Hnotin Hnd']; subst.
  simpl. destruct (edge_is a c r) eqn:E.
  - apply edge_is_eq in E. subst r. simpl.
    assert (Hno : existsb (edge_is a c) l = false).
    { destruct (existsb (edge_is a c) l) eqn:Ex; [|reflexivity].
      apply existsb_exists in Ex as (r & Hin & Hr).
      apply edge_is_eq in Hr. subst r.
      exfalso. apply Hnotin. apply (in_map key) in Hin. exact Hin. }
    rewrite (IH Hnd'), Hno. reflexivity.
  - simpl. apply IH, Hnd'.
Qed.

#[local] Opaque followUser unfollowUser isFollowing.

(** C9.  Without a session [isFollowing] resolves to
    [{ isFollowing: false, error: null }] and leaves the backend as it was,
    no statement sent; [followUser] and [unfollowUser] reject with
    'Not authenticated'. *)
Theorem unauthenticated_isFollowing (b : Backend) (f : jsstring) :
  session b = None ->
  isFollowing f b =
    (Fulfilled {| is_following := false; following_error := None |}, b)
  /\ sent (snd (isFollowing f b)) = sent b
  /\ followUser f b = (Rejected (js "Not authenticated"), b)
  /\ unfollowUser f b = (Rejected (js "Not authenticated"), b).
Proof.
  intros Hs. rewrite isFollowing_eq, followUser_eq, unfollowUser_eq, Hs.
  repeat split.
Qed.

Lemma unauthenticated_isFollowing_witness :
  fst (isFollowing (js "bob") (signedOut [])) =
    Fulfilled {| is_following := false; following_error := None |}
  /\ sent (snd (isFollowing (js "bob") (signedOut []))) = []
  /\ fst (followUser (js "bob") (signedOut [])) =
       Rejected (js "Not authenticated").
Proof.
  destruct (unauthenticated_isFollowing (signedOut []) (js "bob") eq_refl)
    as (H1 & H2 & H3 & _).
  rewrite H1, H3. repeat split.
Defined.




Lemma existsb_edge_In (u : User) (f : jsstring) (l : list FollowRow) :
  existsb (edge_is (uid u) f) l = true <-> In (edge u f) l.
Proof.
  rewrite existsb_exists. split.
  - intros (r & Hin & Hr). apply edge_is_eq in Hr. now subst.
  - intros Hin. exists (edge u f). split; [exact Hin|]. now apply edge_is_eq.
Qed.

Lemma NoDup_map_filter (p : FollowRow -> bool) (l : list FollowRow) :
  NoDup (map key l) -> NoDup (map key (filter p l)).
Proof.
  induction l as [|r l IH]; intros Hnd; simpl; [constructor|].
  inversion Hnd as [|k ks Hnotin Hnd']; subst.
  destruct (p r); [| now apply IH].
  simpl. constructor; [| now apply IH].
  intros Hin. apply Hnotin. apply in_map_iff in Hin as (r' & E & Hr').
  apply filter_In in Hr' as [Hr' _]. rewrite <- E. now apply in_map.
Qed.

Lemma key_not_in (u : User) (f : jsstring) (l : list FollowRow) :
  existsb (same_edge (edge u f)) l = false -> ~ In (key (edge u f)) (map key l).
Proof.
  intros Hex Hin. apply in_map_iff in Hin as (r & E & Hr).
  assert (Hr' : r = edge u f).
  { destruct r as [a c]. unfold key, edge in *. simpl in E.
    injection E as -> ->. reflexivity. }
  subst r. rewrite existsb_same_edge in Hex.
  assert (Ht : existsb (edge_is (uid u) f) l = true)
    by (apply existsb_edge_In; exact Hr).
  congruence.
Qed.

(** The constraints of the migrations hold after [followUser] and after
    [unfollowUser] if they held before. *)
Lemma consistent_followUser (b : Backend) (f : jsstring) :
  consistent b -> consistent (snd (followUser f b)).
Proof.
  intros (Hu & Hi & Hk & Hrows). rewrite followUser_eq.
  destruct (session b) as [u|]; [| exact (conj Hu (conj Hi (conj Hk Hrows)))].
  cbn. destruct (outage b) as [e|]; [exact (conj Hu (conj Hi (conj Hk Hrows)))|].
  destruct (eqb_str (uid u) f) eqn:Hself; [exact (conj Hu (conj Hi (conj Hk Hrows)))|].
  destruct (existsb _ (follows b)) eqn:Hdup; [exact (conj Hu (conj Hi (conj Hk Hrows)))|].
  destruct (profile_exists b (uid u) && profile_exists b f) eqn:Hfk;
    [| exact (conj Hu (conj Hi (conj Hk Hrows)))].
  apply andb_true_iff in Hfk as [Hfk1 Hfk2].
  unfold consistent. cbn. split; [exact Hu|]. split; [exact Hi|]. split.
  - rewrite map_app. simpl.
    eapply Permutation_NoDup; [apply Permutation_cons_append|].
    constructor; [now apply key_not_in | exact Hk].
  - intros r Hin. apply in_app_or in Hin as [Hin | [<- | []]].
    + apply Hrows, Hin.
    + cbn. apply eqb_str_neq in Hself. exact (conj Hself (conj Hfk1 Hfk2)).
Qed.

Lemma consistent_unfollowUser (b : Backend) (f : jsstring) :
  consistent b -> consistent (snd (unfollowUser f b)).
Proof.
  intros (Hu & Hi & Hk & Hrows). rewrite unfollowUser_eq.
  destruct (session b) as [u|]; [| exact (conj Hu (conj Hi (conj Hk Hrows)))].
  cbn. destruct (outage b) as [e|]; [exact (conj Hu (conj Hi (conj Hk Hrows)))|].
  unfold consistent. cbn. split; [exact Hu|]. split; [exact Hi|]. split.
  - apply (NoDup_map_filter _ _ Hk).
  - intros r Hin. apply filter_In in Hin as [Hin _]. apply Hrows, Hin.
Qed.




(** ** [checkUsernameAvailability] *)

Lemma checkUsernameAvailability_eq `{Runtime} (b : Backend) (name : jsstring) :
  checkUsernameAvailability name b =
  let k := toLowerCase name in
  let b1 := record (SelectProfileByUsername k) b in
  match outage b with
  | Some e => (Fulfilled (readAvailability (failed e)), b1)
  | None =>
      (Fulfilled
         (readAvailability
            (single
               (map username
                  (filter (fun r => profiles_select_policy b r
                                    && eqb_str (username r) k)
                     (profiles b))))), b1)
  end.
Proof.
  unfold checkUsernameAvailability, selectProfileByUsername, statement, await,
    resolve.
  cbn. destruct (outage b); reflexivity.
Qed.

(** The three readings of the lookup's answer. *)
Lemma readAvailability_tristate (e : PostgrestError) (row : jsstring) :
  (is_PGRST116 e = true ->
     readAvailability (failed e) =
       {| available := Some true; availability_error := None |})
  /\ readAvailability (ok row) =
       {| available := Some false; availability_error := None |}
  /\ (is_PGRST116 e = false ->
       readAvailability (failed e) =
         {| available := None; availability_error := Some e |}).
Proof.
  unfold readAvailability. cbn.
  repeat split; intros He; now rewrite He.
Qed.

Lemma filter_unique_username (p : ProfileRow -> bool) (k : jsstring)
    (l : list ProfileRow) :
  NoDup (map username l) ->
  (List.length (filter (fun r => p r && eqb_str (username r) k) l) <= 1)%nat.
Proof.
  induction l as [|r l IH]; intros Hnd; simpl; [lia|].
  inversion Hnd as [|x xs Hnotin Hnd']; subst.
  destruct (p r && eqb_str (username r) k) eqn:E; [| now apply IH].
  apply andb_true_iff in E as [_ E]. apply eqb_str_eq in E.
  assert (Hnone : filter (fun r => p r && eqb_str (username r) k) l = []).
  { destruct (filter _ l) as [|r' rest] eqn:F; [reflexivity|].
    assert (Hin : In r' (filter (fun r => p r && eqb_str (username r) k) l))
      by (rewrite F; now left).
    apply filter_In in Hin as [Hin Hr'].
    apply andb_true_iff in Hr' as [_ Hr']. apply eqb_str_eq in Hr'.
    exfalso. apply Hnotin. rewrite E, <- Hr'. now apply in_map. }
  rewrite Hnone. simpl. lia.
Qed.

(** With unique user names and no outage, the verdict is "taken" exactly
    when a row that the caller may read carries the folded name, and
    "available" otherwise. *)
Lemma checkUsernameAvailability_readable `{Runtime} (b : Backend)
    (name : jsstring) :
  NoDup (map username (profiles b)) ->
  outage b = None ->
  fst (checkUsernameAvailability name b) =
    Fulfilled
      {| available :=
           Some (negb (existsb
                         (fun r => profiles_select_policy b r
                                   && eqb_str (username r) (toLowerCase name))
                         (profiles b)));
         availability_error := None |}.
Proof.
  intros Hnd Ho. rewrite checkUsernameAvailability_eq. cbn. rewrite Ho. cbn.
  pose proof (filter_unique_username (profiles_select_policy b)
                (toLowerCase name) _ Hnd) as Hlen.
  destruct (filter _ (profiles b)) as [|r [|r' rest]] eqn:F.
  - assert (E : existsb (fun r => profiles_select_policy b r
                 && eqb_str (username r) (toLowerCase name)) (profiles b)
               = false).
    { destruct (existsb _ (profiles b)) eqn:Ex; [|reflexivity].
      apply existsb_exists in Ex as (r & Hin & Hr).
      assert (Hf : In r (filter (fun r => profiles_select_policy b r
                 && eqb_str (username r) (toLowerCase name)) (profiles b)))
        by (apply filter_In; auto).
      rewrite F in Hf. contradiction. }
    rewrite E. reflexivity.
  - assert (E : existsb (fun r => profiles_select_policy b r
                 && eqb_str (username r) (toLowerCase name)) (profiles b)
               = true).
    { apply existsb_exists. exists r.
      assert (Hf : In r (filter (fun r => profiles_select_policy b r
                 && eqb_str (username r) (toLowerCase name)) (profiles b)))
        by (rewrite F; now left).
      apply filter_In in Hf. exact Hf. }
    rewrite E. reflexivity.
  - simpl in Hlen. lia.
Qed.

(** C5.  The row with user name "admin" exists in [profiles], and
    [checkUsernameAvailability("admin")] answers [available: true]: for a
    caller who is not signed in (no SELECT policy lets any row through),
    and for a signed-in caller when the profile is private and not the
    caller's own.  Only when the row is readable is the answer
    [available: false]. *)
Theorem checkUsernameAvailability_hidden_row :
  let taken := {| available := Some false; availability_error := None |} in
  let free := {| available := Some true; availability_error := None |} in
  In (js "admin") (map username twoProfiles)
  /\ fst (@checkUsernameAvailability basicLatin (js "admin") (signedOut []))
     = Fulfilled free
  /\ fst (@checkUsernameAvailability basicLatin (js "admin")
            {| session := Some ann; profiles := bobPrivate; follows := [];
               outage := None; sent := [] |})
     = Fulfilled free
  /\ fst (@checkUsernameAvailability basicLatin (js "admin") (signedIn []))
     = Fulfilled taken
  /\ fst (@checkUsernameAvailability basicLatin (js "Admin") (signedIn []))
     = Fulfilled taken
  /\ fst (@checkUsernameAvailability basicLatin (js "carol") (signedIn []))
     = Fulfilled free.
Proof.
  cbv zeta. split; [simpl; tauto|].
  repeat split.
Qed.

End DatabaseFacts.

(* ================================================================== *)
(** * The wizard: gating, transitions, submission                      *)
(* ================================================================== *)

Module WizardFacts.

Import SignupFlow JsFacts Notions Fixtures.
Local Open Scope Z_scope.

Lemma len_pos (a : jsstring) : (0 <? len a) = true <-> a <> [].
Proof.
  unfold len. destruct a; simpl; split; intro H; try congruence.
  - discriminate.
  - apply Z.ltb_lt. lia.
Qed.

(** C1.  On the age step [canProceedToNext] holds exactly when [parseInt]
    of the age field is an integer between 13 and 120; so it fails when the
    field does not parse, "13" and "120" pass, "12" and "121" do not. *)
Theorem canProceedToNext_age (s : State) :
  signupStep s = Age ->
  (canProceedToNext s = true <->
     exists n, parseInt (age (authData s)) = Some n /\ 13 <= n <= 120)
  /\ (parseInt (age (authData s)) = None -> canProceedToNext s = false)
  /\ (age (authData s) = js "13" -> canProceedToNext s = true)
  /\ (age (authData s) = js "120" -> canProceedToNext s = true)
  /\ (age (authData s) = js "12" -> canProceedToNext s = false)
  /\ (age (authData s) = js "121" -> canProceedToNext s = false).
Proof.
  intros Hstep. unfold canProceedToNext. rewrite Hstep.
  repeat split.
  - intros H. apply andb_true_iff in H as [H Hle].
    apply andb_true_iff in H as [_ Hge].
    destruct (parseInt (age (authData s))) as [n|]; simpl in *;
      [| discriminate].
    exists n. split; [reflexivity|].
    apply Z.leb_le in Hge. apply Z.leb_le in Hle. lia.
  - intros [n [Hp [Hlo Hhi]]].
    assert (Hne : age (authData s) <> []).
    { intros E. rewrite E in Hp. discriminate. }
    apply len_pos in Hne. rewrite Hne, Hp. simpl.
    apply andb_true_iff. split; apply Z.leb_le; lia.
  - intros Hp. rewrite Hp. simpl. apply andb_false_r.
  - intros E. rewrite E. reflexivity.
  - intros E. rewrite E. reflexivity.
  - intros E. rewrite E. reflexivity.
  - intros E. rewrite E. reflexivity.
Qed.

Lemma canProceedToNext_age_witness :
  signupStep (atAge (js "13")) = Age
  /\ canProceedToNext (atAge (js "13")) = true
  /\ canProceedToNext (atAge (js "121")) = false.
Proof.
  split; [reflexivity|]. split.
  - destruct (canProceedToNext_age (atAge (js "13")) eq_refl)
      as (_ & _ & H & _).
    apply H. reflexivity.
  - destruct (canProceedToNext_age (atAge (js "121")) eq_refl)
      as (_ & _ & _ & _ & _ & H).
    apply H. reflexivity.
Defined.


(** ** The order of the steps *)

Lemma steps_complete (st : SignupStep) : In st steps.
Proof. destruct st; simpl; tauto. Qed.

Lemma steps_NoDup : NoDup steps.
Proof.
  unfold steps.
  repeat (constructor; [simpl; intuition discriminate|]). constructor.
Qed.

Lemma indexOf_range (st : SignupStep) : 0 <= indexOf steps st <= 8.
Proof. destruct st; vm_compute; split; discriminate. Qed.

Lemma at_index_indexOf (st : SignupStep) :
  at_index steps (indexOf steps st) = Some st.
Proof. destruct st; reflexivity. Qed.

Lemma next_index_defined (st : SignupStep) :
  indexOf steps st < Z.of_nat (List.length steps) - 1 ->
  exists st', at_index steps (indexOf steps st + 1) = Some st'
              /\ indexOf steps st' = indexOf steps st + 1.
Proof.
  destruct st; intros H; try (eexists; split; reflexivity).
  vm_compute in H. discriminate.
Qed.

Lemma previous_index_defined (st : SignupStep) :
  0 < indexOf steps st ->
  exists st', at_index steps (indexOf steps st - 1) = Some st'
              /\ indexOf steps st' = indexOf steps st - 1.
Proof.
  destruct st; intros H; try (eexists; split; reflexivity).
  vm_compute in H. discriminate.
Qed.

(** C3.  The step is one of the nine of [steps]; [goToNextStep] moves from
    a step before the last to the one right after it, and on the last step
    either goes to Welcome (with the first step selected) or stays;
    [goToPreviousStep] moves to the step right before, and from the first
    step, [Email], goes to Welcome and to no other step. *)
Theorem step_transitions (o : SignUpOutcome) (s : State) :
  let i := indexOf steps (signupStep s) in
  let n := fst (goToNextStep o s) in
  let p := goToPreviousStep s in
  (List.length steps = 9%nat /\ NoDup steps /\ In (signupStep s) steps
   /\ In (signupStep n) steps /\ In (signupStep p) steps)
  /\ (i < 8 ->
      authMode n = authMode s /\ indexOf steps (signupStep n) = i + 1)
  /\ (i = 8 ->
      match o with
      | SignUpResolved _ None => authMode n = Welcome /\ signupStep n = Email
      | _ => authMode n = authMode s /\ signupStep n = signupStep s
      end)
  /\ (0 < i ->
      authMode p = authMode s /\ indexOf steps (signupStep p) = i - 1)
  /\ (signupStep s = Email ->
      authMode p = Welcome /\ signupStep p = Email).
Proof.
  cbv zeta.
  split; [repeat split; auto using steps_NoDup, steps_complete|].
  unfold goToNextStep, goToPreviousStep.
  destruct (signupStep s) eqn:E; cbn;
    (split; [intros H | split; [intros H | split; [intros H | intros H]]]);
    try discriminate H; try (exfalso; lia); rewrite ?E; auto.
  destruct o as [e [msg|]|]; cbn; rewrite ?E; auto.
Qed.

Lemma step_transitions_witness :
  authMode (goToPreviousStep (onStep Email)) = Welcome
  /\ signupStep (goToPreviousStep (onStep Email)) = Email
  /\ signupStep (fst (goToNextStep SignUpRejected (onStep Country))) = Username
  /\ signupStep (goToPreviousStep (onStep Country)) = Age.
Proof.
  destruct (step_transitions SignUpRejected (onStep Email))
    as (_ & _ & _ & _ & Hfirst).
  destruct (step_transitions SignUpRejected (onStep Country))
    as (_ & Hnext & _ & Hprev & _).
  destruct (Hfirst eq_refl) as [Hm Hs].
  repeat split; try assumption; reflexivity.
Defined.

(** ** Submission *)

(** C4.  On the last step with an interest selected, [goToNextStep] calls
    [signUp] exactly once, with the e-mail, the password and the seven
    profile fields of the form (the call determines all nine); when the call
    succeeds the state is that of Welcome with an empty form, the first
    step, and no user-name verdict. *)
Theorem submit_on_last_step (o : SignUpOutcome) (s : State) :
  signupStep s = Interests ->
  interests (authData s) <> [] ->
  let d := authData s in
  let n := fst (goToNextStep o s) in
  let fx := snd (goToNextStep o s) in
  filter isSignUp fx =
    [SignUp (email d) (password d)
       {| meta_firstName := firstName d; meta_lastName := lastName d;
          meta_username := username d; meta_gender := gender d;
          meta_age := age d; meta_country := country d;
          meta_interests := interests d |}]
  /\ (forall d', signUpCall d' = signUpCall d ->
        email d' = email d /\ password d' = password d
        /\ firstName d' = firstName d /\ lastName d' = lastName d
        /\ gender d' = gender d /\ age d' = age d /\ country d' = country d
        /\ username d' = username d /\ interests d' = interests d)
  /\ (forall e, o = SignUpResolved e None ->
        authMode n = Welcome /\ authData n = emptyAuthData
        /\ signupStep n = Email /\ usernameAvailable n = None
        /\ checkingUsername n = false /\ isLoading n = false).
Proof.
  intros Hstep _. cbv zeta. unfold goToNextStep. rewrite Hstep. cbn.
  split; [| split].
  - destruct o as [e [msg|]|]; reflexivity.
  - intros d' H. unfold signUpCall in H. injection H as -> -> -> -> -> -> -> -> ->.
    repeat split.
  - intros e ->. cbn. repeat split.
Qed.

Lemma submit_on_last_step_witness :
  List.length (filter isSignUp
                 (snd (goToNextStep (SignUpResolved None None) example))) = 1%nat
  /\ fst (goToNextStep (SignUpResolved None None) example) = initialState.
Proof.
  assert (Hi : interests (authData example) <> []) by discriminate.
  destruct (submit_on_last_step (SignUpResolved None None) example eq_refl Hi)
    as (Hcall & _ & _).
  split.
  - rewrite Hcall. reflexivity.
  - reflexivity.
Defined.

(** The end-to-end example: every step lets the user through, the last
    click makes the one [signUp] call with the nine fields, and a failing
    call leaves the form of [example] on the last step. *)
Lemma end_to_end :
  fold_left (perform (SignUpResolved None None)) script (onStep Email, []) =
    (initialState,
     [signUpCall (authData example); ConsoleLog; Alert AccountCreated])
  /\ fst (fold_left (perform SignUpRejected) script (onStep Email, [])) =
       example.
Proof. split; reflexivity. Qed.

(** Each step of [script] is needed: without the verdict of the user-name
    check the wizard stays on the user-name step and calls nothing. *)
Lemma end_to_end_without_verdict :
  let stuck :=
    fold_left (perform (SignUpResolved None None))
      (filter (fun a => match a with Verdict _ => false | _ => true end) script)
      (onStep Email, []) in
  signupStep (fst stuck) = Username /\ filter isSignUp (snd stuck) = [].
Proof. split; reflexivity. Qed.

(** C7.  When [signUp], called on the last step, returns an error or
    throws, the form, the step and the mode are as before: the state only
    has [isLoading] back to [false], one alert is shown, and the button to
    retry is enabled as it was.  The same holds for whatever the state is
    when the call settles. *)
Theorem signup_failure_keeps_form (o : SignUpOutcome) (s : State) :
  signupStep s = Interests ->
  signUpFailed o ->
  let n := fst (goToNextStep o s) in
  let fx := snd (goToNextStep o s) in
  n = setIsLoading false s
  /\ authData n = authData s /\ signupStep n = signupStep s
  /\ authMode n = authMode s
  /\ canProceedToNext n = canProceedToNext s /\ isLoading n = false
  /\ List.length (filter isAlert fx) = 1%nat
  /\ (forall x, fst (signUpSettled o x) = setIsLoading false x).
Proof.
  intros Hstep Hfail. cbv zeta. unfold goToNextStep. rewrite Hstep. cbn.
  destruct o as [e [msg|]|]; cbn in *; try contradiction;
    (repeat match goal with |- _ /\ _ => split end);
    rewrite ?Hstep; auto.
Qed.

Lemma signup_failure_keeps_form_witness :
  fst (goToNextStep SignUpRejected example) = example
  /\ fst (goToNextStep (SignUpResolved None (Some (js "User already registered")))
            example) = example.
Proof.
  split.
  - destruct (signup_failure_keeps_form SignUpRejected example eq_refl I)
      as (H & _).
    rewrite H. reflexivity.
  - destruct (signup_failure_keeps_form
                (SignUpResolved None (Some (js "User already registered")))
                example eq_refl I) as (H & _).
    rewrite H. reflexivity.
Defined.


(** ** Interests *)

Lemma toggle_interests (i : jsstring) (s : State) :
  interests (authData (handleInterestToggle i s)) =
  if includes (interests (authData s)) i
  then without i (interests (authData s))
  else interests (authData s) ++ [i].
Proof.
  unfold handleInterestToggle.
  destruct (includes (interests (authData s)) i);
    destruct s as [m st ua ck ld []]; reflexivity.
Qed.

Lemma in_without (i j : jsstring) (l : list jsstring) :
  In j (without i l) <-> In j l /\ j <> i.
Proof.
  unfold without. rewrite filter_In, negb_true_iff, eqb_str_neq. tauto.
Qed.

Lemma without_absent (i : jsstring) (l : list jsstring) :
  ~ In i l -> without i l = l.
Proof.
  induction l as [|a l IH]; simpl; intros H; [reflexivity|].
  destruct (eqb_str a i) eqn:E.
  - apply eqb_str_eq in E. subst. tauto.
  - simpl. f_equal. apply IH. tauto.
Qed.

Lemma without_app (i : jsstring) (l r : list jsstring) :
  without i (l ++ r) = without i l ++ without i r.
Proof. apply filter_app. Qed.

Lemma without_self (i : jsstring) : without i [i] = [].
Proof. unfold without. simpl. now rewrite eqb_str_refl. Qed.

Lemma without_then_append (i : jsstring) (l : list jsstring) :
  NoDup l -> In i l -> Permutation (without i l ++ [i]) l.
Proof.
  intros Hnd Hin. apply in_split in Hin as (a & b & ->).
  apply NoDup_remove_2 in Hnd.
  rewrite without_app. change (i :: b) with ([i] ++ b).
  rewrite without_app, without_self. simpl.
  rewrite !without_absent by (intros H; apply Hnd, in_or_app; tauto).
  rewrite <- app_assoc. apply Permutation_app_head.
  symmetry. apply Permutation_cons_append.
Qed.

(** C10.  On a list of interests without repetition, [handleInterestToggle]
    takes the id out when it is there and puts it at the end when it is not;
    the list stays without repetition, and toggling the same id twice gives
    back the interests that were there (the same elements, each once). *)
Theorem handleInterestToggle_involutive (i : jsstring) (s : State) :
  NoDup (interests (authData s)) ->
  let l := interests (authData s) in
  let l1 := interests (authData (handleInterestToggle i s)) in
  let l2 := interests (authData (handleInterestToggle i
                                   (handleInterestToggle i s))) in
  (In i l -> l1 = without i l /\ ~ In i l1)
  /\ (~ In i l -> l1 = l ++ [i])
  /\ NoDup l1
  /\ (forall j, In j l2 <-> In j l)
  /\ Permutation l2 l /\ NoDup l2.
Proof.
  intros Hnd. cbv zeta. rewrite !toggle_interests.
  destruct (includes (interests (authData s)) i) eqn:Hinc.
  - apply includes_In in Hinc.
    assert (Hout : ~ In i (without i (interests (authData s)))).
    { rewrite in_without. tauto. }
    assert (Hno : includes (without i (interests (authData s))) i = false).
    { destruct (includes _ i) eqn:E; [|reflexivity].
      apply includes_In in E. contradiction. }
    rewrite Hno.
    pose proof (without_then_append i _ Hnd Hinc) as Hperm.
    repeat match goal with |- _ /\ _ => split end.
    + auto.
    + tauto.
    + apply NoDup_filter, Hnd.
    + intros j. split; intros H.
      * eapply Permutation_in; [exact Hperm | exact H].
      * eapply Permutation_in; [symmetry; exact Hperm | exact H].
    + exact Hperm.
    + eapply Permutation_NoDup; [symmetry; exact Hperm | exact Hnd].
  - assert (Hout : ~ In i (interests (authData s))).
    { intros H. apply includes_In in H. congruence. }
    assert (Hyes : includes (interests (authData s) ++ [i]) i = true).
    { apply includes_In, in_or_app. right. now left. }
    rewrite Hyes, without_app, without_self, app_nil_r, without_absent by exact Hout.
    assert (Hnd1 : NoDup (interests (authData s) ++ [i])).
    { eapply Permutation_NoDup; [apply Permutation_cons_append|].
      constructor; assumption. }
    repeat match goal with |- _ /\ _ => split end; auto; tauto.
Qed.

Lemma handleInterestToggle_involutive_witness :
  interests (authData (handleInterestToggle (js "music") example)) = []
  /\ Permutation
       (interests (authData (handleInterestToggle (js "music")
                               (handleInterestToggle (js "music") example))))
       [js "music"].
Proof.
  assert (Hnd : NoDup (interests (authData example))).
  { repeat constructor. simpl. tauto. }
  destruct (handleInterestToggle_involutive (js "music") example Hnd)
    as (Hin & _ & _ & _ & Hperm & _).
  split.
  - destruct Hin as [H _]; [simpl; now left|]. rewrite H. reflexivity.
  - exact Hperm.
Defined.

End WizardFacts.

(* ================================================================== *)
(** * The user-name check: when queries go out                         *)
(* ================================================================== *)

Module DebounceFacts.

Import SignupFlow JsFacts Notions Fixtures.
Local Open Scope Z_scope.

Section Timing.
Context `{Runtime}.

Lemma settleDue_frame (t : Z) (pending : list Check) (u : State) :
  signupStep (snd (settleDue t pending u)) = signupStep u
  /\ authData (snd (settleDue t pending u)) = authData u.
Proof.
  revert u. induction pending as [|c rest IH]; intros u; simpl; [tauto|].
  destruct (issuedAt c + 500 <=? t).
  - destruct (IH (settle (mockVerdict c) u)) as [H1 H2].
    rewrite H1, H2. split; reflexivity.
  - specialize (IH u). destruct (settleDue t rest u) as [keep u']. exact IH.
Qed.

Lemma timing_runTimers (b : Build) (t : Z) (x : Session) :
  timing (runTimers b t x) = timing x.
Proof.
  destruct b; [|reflexivity]. unfold runTimers.
  pose proof (settleDue_frame t (inFlight x) (ui x)) as [H1 H2].
  destruct (settleDue t (inFlight x) (ui x)) as [keep u]. simpl in *.
  unfold timing. simpl. now rewrite H1, H2.
Qed.

Lemma timing_check (name : jsstring) (t : Z) (x : Session) :
  timing (SignupFlow.checkUsernameAvailability name t x) =
  {| t_now := now x; t_debounce := debounceTimeout x;
     t_queries := if len name <? 3 then queries x
                  else queries x ++ [(t, toLowerCase name)];
     t_step := signupStep (ui x); t_name := username (authData (ui x)) |}.
Proof.
  unfold SignupFlow.checkUsernameAvailability.
  destruct (len name <? 3); reflexivity.
Qed.

Lemma timing_setNow (t : Z) (x : Session) :
  timing (setNow t x) =
  {| t_now := t; t_debounce := t_debounce (timing x);
     t_queries := t_queries (timing x); t_step := t_step (timing x);
     t_name := t_name (timing x) |}.
Proof. reflexivity. Qed.

Lemma timing_handle (b : Build) (x : Session) (e : Event) :
  timing (handle b x e) = advance (timing x) e.
Proof.
  destruct e as [v | dt | i r]; simpl.
  - unfold keystroke.
    destruct (eqb_str v (username (authData (ui x)))) eqn:E.
    + apply eqb_str_eq in E. subst v.
      destruct x as [[m st ua ck ld []] ? ? ? ? ?]. reflexivity.
    + unfold usernameEffect.
      destruct x as [[m st ua ck ld []] ? ? ? ? ?]. cbn.
      destruct (step_eqb st Username && negb (eqb_str v [])); reflexivity.
  - unfold elapse, advance.
    change (t_debounce (timing x)) with (debounceTimeout x).
    change (t_now (timing x)) with (now x).
    change (t_queries (timing x)) with (queries x).
    change (t_step (timing x)) with (signupStep (ui x)).
    change (t_name (timing x)) with (username (authData (ui x))).
    destruct (dt <? 0); [reflexivity|].
    destruct (debounceTimeout x) as [tm|] eqn:D.
    + destruct (fireAt tm <=? now x + dt) eqn:F.
      * rewrite timing_setNow, timing_runTimers, timing_check.
        pose proof (timing_runTimers b (fireAt tm) x) as H3.
        unfold timing in H3. injection H3 as C1 C2 C3 C4 C5.
        cbn. rewrite C3, C4, C5. reflexivity.
      * rewrite timing_setNow, timing_runTimers. cbn. now rewrite D.
    + rewrite timing_setNow, timing_runTimers. cbn. now rewrite D.
  - unfold answer. destruct b; [reflexivity|].
    destruct (find _ (inFlight x)); reflexivity.
Qed.

Lemma timing_run (b : Build) (es : list Event) (x : Session) :
  timing (run b x es) = fold_left advance es (timing x).
Proof.
  revert x. induction es as [|e es IH]; intros x; simpl; [reflexivity|].
  unfold run in *. simpl. rewrite IH, timing_handle. reflexivity.
Qed.


Lemma run_app (b : Build) (x : Session) (es fs : list Event) :
  run b x (es ++ fs) = run b (run b x es) fs.
Proof. unfold run. apply fold_left_app. Qed.

Lemma last_cons (vs : list jsstring) (a d : jsstring) :
  last (a :: vs) d = last vs a.
Proof.
  revert a d. induction vs as [|c vs IH]; intros a d; [reflexivity|].
  change (last (a :: c :: vs) d) with (last (c :: vs) d).
  now rewrite (IH c d), (IH c a).
Qed.

Lemma changing_app (v0 v : jsstring) (vs : list jsstring) :
  changing v0 (vs ++ [v]) <-> changing v0 vs /\ v <> last vs v0.
Proof.
  revert v0. induction vs as [|a vs IH]; intros v0.
  - simpl. tauto.
  - change ((a :: vs) ++ [v]) with (a :: (vs ++ [v])).
    cbn [changing]. rewrite IH, last_cons. tauto.
Qed.

(** While the keystrokes of a burst keep coming, no query goes out. *)
Lemma burst_quiet (ks : list (jsstring * Z)) (T : Timing) :
  t_step T = Username ->
  spaced ks ->
  changing (t_name T) (map fst ks) ->
  let T' := fold_left advance (burst ks) T in
  t_queries T' = t_queries T /\ t_now T' = t_now T + span ks
  /\ t_step T' = Username /\ t_name T' = last (map fst ks) (t_name T).
Proof.
  revert T. induction ks as [|[v dt] ks IH]; intros T Hstep Hsp Hch.
  - unfold span. cbn. repeat split; try assumption; lia.
  - inversion Hsp as [|k ks' Hk Hsp']; subst. cbn in Hk.
    cbn in Hch. destruct Hch as [Hv Hch].
    cbn [burst fold_left].
    set (T1 := advance T (Keystroke v)).
    set (T2 := advance T1 (Elapse dt)).
    assert (H1 : T1 = {| t_now := t_now T;
                         t_debounce := if negb (eqb_str v [])
                                       then Some {| fireAt := t_now T + 500;
                                                    arg := v |}
                                       else None;
                         t_queries := t_queries T; t_step := Username;
                         t_name := v |}).
    { unfold T1, advance. apply eqb_str_neq in Hv. rewrite Hv, Hstep.
      reflexivity. }
    assert (H2 : t_queries T2 = t_queries T /\ t_now T2 = t_now T + dt
                 /\ t_step T2 = Username /\ t_name T2 = v).
    { unfold T2. rewrite H1. unfold advance.
      assert (Hdt : (dt <? 0) = false) by (apply Z.ltb_ge; lia).
      rewrite Hdt. cbn.
      destruct (negb (eqb_str v [])); cbn.
      - assert (Hf : (t_now T + 500 <=? t_now T + dt) = false)
          by (apply Z.leb_gt; lia).
        rewrite Hf. cbn. repeat split.
      - repeat split. }
    destruct H2 as (Q2 & N2 & S2 & M2).
    assert (Hch2 : changing (t_name T2) (map fst ks)) by now rewrite M2.
    destruct (IH T2 S2 Hsp' Hch2) as (Q & N & St & M).
    cbv zeta in *. rewrite Q, N, St, M, Q2, N2, M2.
    repeat split.
    + unfold span. cbn. fold (span ks). lia.
    + cbn [map fst]. now rewrite last_cons.
Qed.

(** A keystroke and a pause of 500. *)
Lemma settle_after_pause (T : Timing) (v : jsstring) :
  t_step T = Username ->
  v <> t_name T ->
  let T' := fold_left advance [Keystroke v; Elapse 500] T in
  t_now T' = t_now T + 500 /\ t_debounce T' = None
  /\ t_queries (advance T (Keystroke v)) = t_queries T
  /\ t_queries T' =
       if len v <? 3 then t_queries T
       else t_queries T ++ [(t_now T + 500, toLowerCase v)].
Proof.
  intros Hstep Hv. cbn [fold_left].
  assert (H1 : advance T (Keystroke v) =
               {| t_now := t_now T;
                  t_debounce := if negb (eqb_str v [])
                                then Some {| fireAt := t_now T + 500;
                                             arg := v |}
                                else None;
                  t_queries := t_queries T; t_step := Username;
                  t_name := v |}).
  { unfold advance. apply eqb_str_neq in Hv. rewrite Hv, Hstep.
    reflexivity. }
  rewrite H1. unfold advance. cbn.
  destruct (eqb_str v []) eqn:E; cbn.
  - apply eqb_str_eq in E. subst v. cbn. repeat split.
  - rewrite Z.leb_refl. cbn. repeat split.
Qed.

End Timing.

(** C2, as the code has it.  On the user-name step, after keystrokes that
    each change the field and follow one another by less than 500, and a
    last one followed by a pause of 500: nothing has gone out before the
    pause; if the final value has at least 3 code units exactly one query
    has gone out since the start, 500 after the last keystroke and for the
    final value, lower-cased; if it is shorter none has.  This holds for
    both copies of the component and whatever the earlier checks answer. *)
Theorem debounce_burst `{Runtime} (b : Build) (x : Session)
    (ks : list (jsstring * Z)) (v : jsstring) :
  signupStep (ui x) = Username ->
  spaced ks ->
  changing (username (authData (ui x))) (map fst ks ++ [v]) ->
  let y := run b x (burst ks ++ [Keystroke v; Elapse 500]) in
  let t := now x + span ks in
  now y = t + 500
  /\ debounceTimeout y = None
  /\ queries (run b x (burst ks ++ [Keystroke v])) = queries x
  /\ (3 <= len v -> queries y = queries x ++ [(t + 500, toLowerCase v)])
  /\ (len v < 3 -> queries y = queries x).
Proof.
  intros Hstep Hsp Hch. cbv zeta.
  apply changing_app in Hch as [Hch Hv].
  pose proof (burst_quiet ks (timing x) Hstep Hsp Hch) as (Q & N & St & M).
  cbv zeta in *.
  set (T := fold_left advance (burst ks) (timing x)) in *.
  assert (Hv' : v <> t_name T) by (rewrite M; exact Hv).
  pose proof (settle_after_pause T v St Hv') as (N' & D' & Q1 & Q').
  cbv zeta in *.
  assert (E : timing (run b x (burst ks ++ [Keystroke v; Elapse 500])) =
              fold_left advance [Keystroke v; Elapse 500] T).
  { rewrite timing_run, fold_left_app. reflexivity. }
  assert (E1 : timing (run b x (burst ks ++ [Keystroke v])) =
               advance T (Keystroke v)).
  { rewrite timing_run, fold_left_app. reflexivity. }
  change (now (run b x (burst ks ++ [Keystroke v; Elapse 500])))
    with (t_now (timing (run b x (burst ks ++ [Keystroke v; Elapse 500])))).
  change (debounceTimeout (run b x (burst ks ++ [Keystroke v; Elapse 500])))
    with (t_debounce
            (timing (run b x (burst ks ++ [Keystroke v; Elapse 500])))).
  change (queries (run b x (burst ks ++ [Keystroke v; Elapse 500])))
    with (t_queries
            (timing (run b x (burst ks ++ [Keystroke v; Elapse 500])))).
  change (queries (run b x (burst ks ++ [Keystroke v])))
    with (t_queries (timing (run b x (burst ks ++ [Keystroke v])))).
  rewrite E, E1, N', D', Q1, Q', Q, N. cbn.
  repeat split.
  - intros Hlen. apply Z.ltb_ge in Hlen. now rewrite Hlen.
  - intros Hlen. apply Z.ltb_lt in Hlen. now rewrite Hlen.
Qed.

Lemma debounce_burst_witness :
  queries (@run basicLatin MockCheck onUsernameStep
             (burst [(js "a", 100); (js "ab", 100)]
              ++ [Keystroke (js "abc"); Elapse 500]))
  = [(700, js "abc")]
  /\ queries (@run basicLatin ProfilesCheck onUsernameStep
               [Keystroke (js "ab"); Elapse 500]) = [].
Proof.
  assert (Hsp : spaced [(js "a", 100); (js "ab", 100)]).
  { repeat constructor; simpl; lia. }
  assert (Hch : changing (username (authData (ui onUsernameStep)))
                  (map fst [(js "a", 100); (js "ab", 100)] ++ [js "abc"])).
  { simpl. repeat split; discriminate. }
  destruct (@debounce_burst basicLatin MockCheck onUsernameStep
              [(js "a", 100); (js "ab", 100)] (js "abc") eq_refl Hsp Hch)
    as (_ & _ & _ & Hq & _).
  assert (Hch2 : changing (username (authData (ui onUsernameStep)))
                   (map fst (@nil (jsstring * Z)) ++ [js "ab"])).
  { simpl. repeat split; discriminate. }
  destruct (@debounce_burst basicLatin ProfilesCheck onUsernameStep
              [] (js "ab") eq_refl (Forall_nil _) Hch2)
    as (_ & _ & _ & _ & Hshort).
  split.
  - rewrite Hq; [reflexivity | vm_compute; discriminate].
  - apply Hshort. reflexivity.
Defined.

(** C2, as the claim has it, fails.  A change to "ab" and a pause of 500
    issue no query.  And in the copy that looks the name up, with "alice"
    typed, its query out at 500, "admin" typed at 600, its query out at
    1100 and answered first (by a failure, so the verdict is unknown), the
    answer to the query for "alice" then sets the verdict to available.
    In the mock copy the verdict of "alice" is stored at 1000, when the
    field holds "admin" and no query for it has gone out; the Continue
    button is then enabled. *)
Lemma debounce_claim_fails :
  ~ @EveryChangeQueries basicLatin MockCheck
  /\ ~ @EveryChangeQueries basicLatin ProfilesCheck
  /\ ~ @StaleNeverOverwrites basicLatin ProfilesCheck
  /\ (let x := @run basicLatin MockCheck onUsernameStep
                 [Keystroke (js "alice"); Elapse 500; Elapse 100;
                  Keystroke (js "admin"); Elapse 400] in
      now x = 1000 /\ username (authData (ui x)) = js "admin"
      /\ queries x = [(500, js "alice")]
      /\ usernameAvailable (ui x) = Some true
      /\ canProceedToNext (ui x) = true).
Proof.
  split; [| split; [| split]].
  - intros Hc. specialize (Hc (js "ab")). 
    assert (Hne : js "ab" <> []) by discriminate.
    apply Hc in Hne. vm_compute in Hne. discriminate Hne.
  - intros Hc. specialize (Hc (js "ab")). 
    assert (Hne : js "ab" <> []) by discriminate.
    apply Hc in Hne. vm_compute in Hne. discriminate Hne.
  - intros Hc.
    specialize (Hc [Keystroke (js "alice"); Elapse 500; Elapse 100;
                    Keystroke (js "admin"); Elapse 500; Answer 1%nat Threw]
                   0%nat (Responded (Supabase.failed Supabase.PGRST116))
                   {| checkId := 0; asked := js "alice"; issuedAt := 500 |}).
    cbv zeta in Hc.
    assert (Hfind : find (fun c' => Nat.eqb (checkId c') 0)
              (inFlight (@run basicLatin ProfilesCheck onUsernameStep
                 [Keystroke (js "alice"); Elapse 500; Elapse 100;
                  Keystroke (js "admin"); Elapse 500; Answer 1%nat Threw]))
            = Some {| checkId := 0; asked := js "alice"; issuedAt := 500 |})
      by reflexivity.
    specialize (Hc Hfind).
    assert (Hnewer : exists q,
              In q (queries (@run basicLatin ProfilesCheck onUsernameStep
                 [Keystroke (js "alice"); Elapse 500; Elapse 100;
                  Keystroke (js "admin"); Elapse 500; Answer 1%nat Threw]))
              /\ issuedAt {| checkId := 0; asked := js "alice";
                             issuedAt := 500 |} < fst q).
    { exists (1100, js "admin"). split; [right; left; reflexivity|].
      reflexivity. }
    specialize (Hc Hnewer). vm_compute in Hc. discriminate Hc.
  - vm_compute. repeat split.
Qed.

End DebounceFacts.

(* ================================================================== *)
(** * lib/database.ts: calls in sequence, and the follow counts        *)
(* ================================================================== *)

Module FollowFacts.

Import Supabase Database FollowCounts JsFacts Notions Fixtures DatabaseFacts.
Local Open Scope Z_scope.

#[local] Opaque followUser unfollowUser isFollowing.

Lemma filter_not_edge_absent (u : User) (f : jsstring) (l : list FollowRow) :
  ~ In (edge u f) l ->
  filter (fun r => negb (edge_is (uid u) f r)) l = l.
Proof.
  induction l as [|r l IH]; intros Hn; simpl; [reflexivity|].
  destruct (edge_is (uid u) f r) eqn:E.
  - apply edge_is_eq in E. exfalso. apply Hn. left. exact E.
  - simpl. f_equal. apply IH. intros H. apply Hn. now right.
Qed.

Lemma followUser_success (b : Backend) (u : User) (f : jsstring) :
  session b = Some u ->
  succeeded (fst (followUser f b)) ->
  follows (snd (followUser f b)) = follows b ++ [edge u f]
  /\ ~ In (edge u f) (follows b)
  /\ session (snd (followUser f b)) = session b
  /\ outage (snd (followUser f b)) = None.
Proof.
  intros Hs. rewrite followUser_eq, Hs. cbn.
  destruct (outage b) as [e|] eqn:Ho; cbn; [discriminate|].
  destruct (eqb_str (uid u) f); cbn; [discriminate|].
  rewrite existsb_same_edge.
  destruct (existsb _ (follows b)) eqn:Ex; cbn; [discriminate|].
  destruct (profile_exists b (uid u) && profile_exists b f); cbn;
    [|discriminate].
  intros _. repeat split; try assumption.
  intros Hin. apply existsb_edge_In in Hin. congruence.
Qed.



(** X2. After a [followUser] that succeeded, [isFollowing] for the same
    target answers [{ isFollowing: true, error: null }] (the pairs of
    [follows] being unique, as the migration has it). *)
Theorem follow_then_isFollowing (b : Backend) (u : User) (f : jsstring) :
  session b = Some u ->
  NoDup (map key (follows b)) ->
  succeeded (fst (followUser f b)) ->
  fst (isFollowing f (snd (followUser f b))) =
    Fulfilled {| is_following := true; following_error := None |}.
Proof.
  intros Hs Hnd Hok.
  destruct (followUser_success b u f Hs Hok) as (Hf & Hnot & Hs' & Ho').
  rewrite isFollowing_eq, Hs', Hs. cbn zeta. rewrite Ho', Hf.
  assert (Hnd' : NoDup (map key (follows b ++ [edge u f]))).
  { rewrite map_app. simpl.
    eapply Permutation_NoDup; [apply Permutation_cons_append|].
    constructor; [|exact Hnd].
    intros Hin. apply in_map_iff in Hin as (r & E & Hr).
    destruct r as [a c]. unfold key, edge in E. simpl in E.
    injection E as -> ->. exact (Hnot Hr). }
  rewrite (lookup_unique _ _ _ Hnd').
  assert (Ex : existsb (edge_is (uid u) f) (follows b ++ [edge u f]) = true).
  { apply existsb_edge_In, in_or_app. right. now left. }
  rewrite Ex. reflexivity.
Qed.

Lemma follow_then_isFollowing_witness :
  fst (isFollowing (js "bob") (snd (followUser (js "bob") (signedIn [])))) =
    Fulfilled {| is_following := true; following_error := None |}.
Proof.
  assert (Hok : succeeded (fst (followUser (js "bob") (signedIn []))))
    by (rewrite followUser_eq; reflexivity).
  apply (follow_then_isFollowing (signedIn []) ann (js "bob") eq_refl);
    [constructor|exact Hok].
Defined.

(** X3. [followUser] that succeeded, then [unfollowUser] for the same
    target: the second call returns [{ error: null }], [follows] is the
    list it was before the two calls, and [isFollowing] answers
    [{ isFollowing: false, error: null }]. *)
Theorem follow_unfollow_roundtrip (b : Backend) (u : User) (f : jsstring) :
  session b = Some u ->
  succeeded (fst (followUser f b)) ->
  let b1 := snd (followUser f b) in
  let b2 := snd (unfollowUser f b1) in
  fst (unfollowUser f b1) = Fulfilled None
  /\ follows b2 = follows b
  /\ fst (isFollowing f b2) =
       Fulfilled {| is_following := false; following_error := None |}.
Proof.
  intros Hs Hok. cbv zeta.
  destruct (followUser_success b u f Hs Hok) as (Hf & Hnot & Hs' & Ho').
  rewrite Hs in Hs'.
  assert (E2 : unfollowUser f (snd (followUser f b)) =
               (Fulfilled None,
                setFollows (follows b)
                  (record (DeleteFollow (uid u) f) (snd (followUser f b))))).
  { rewrite unfollowUser_eq, Hs'. cbn zeta. rewrite Ho', Hf.
    rewrite filter_app, (filter_not_edge_absent u f _ Hnot). simpl.
    assert (E : edge_is (uid u) f (edge u f) = true) by now apply edge_is_eq.
    rewrite E. simpl. now rewrite app_nil_r. }
  rewrite E2. cbn [fst snd]. split; [reflexivity|]. split; [reflexivity|].
  rewrite isFollowing_eq. cbn. rewrite Hs', Ho'. cbn.
  assert (Hnone : filter (edge_is (uid u) f) (follows b) = []).
  { clear - Hnot. induction (follows b) as [|r l IH]; [reflexivity|].
    simpl. destruct (edge_is (uid u) f r) eqn:E.
    - apply edge_is_eq in E. exfalso. apply Hnot. now left.
    - apply IH. intros H. apply Hnot. now right. }
  rewrite Hnone. reflexivity.
Qed.

Lemma follow_unfollow_roundtrip_witness :
  follows (snd (unfollowUser (js "bob")
                  (snd (followUser (js "bob") (signedIn []))))) = [].
Proof.
  assert (Hok : succeeded (fst (followUser (js "bob") (signedIn []))))
    by (rewrite followUser_eq; reflexivity).
  destruct (follow_unfollow_roundtrip (signedIn []) ann (js "bob") eq_refl Hok)
    as (_ & H & _).
  exact H.
Defined.

Lemma followUser_failure_keeps (b : Backend) (f : jsstring) :
  failure (fst (followUser f b)) ->
  follows (snd (followUser f b)) = follows b.
Proof.
  rewrite followUser_eq.
  destruct (session b) as [u|]; cbn; [|reflexivity].
  destruct (outage b) as [e|]; cbn; [reflexivity|].
  destruct (eqb_str (uid u) f); cbn; [reflexivity|].
  destruct (existsb _ (follows b)); cbn; [reflexivity|].
  destruct (profile_exists b (uid u) && profile_exists b f); cbn;
    [intros H; contradiction|reflexivity].
Qed.

(** X4. [followUser] either fails or succeeds: a call that throws or
    returns an error leaves [follows] as it was, and no call adds more
    than one row. *)
Theorem followUser_all_or_nothing (b : Backend) (f : jsstring) :
  (failure (fst (followUser f b)) ->
     follows (snd (followUser f b)) = follows b)
  /\ (List.length (follows (snd (followUser f b)))
      <= S (List.length (follows b)))%nat
  /\ (failure (fst (followUser f b)) \/ succeeded (fst (followUser f b))).
Proof.
  rewrite followUser_eq.
  destruct (session b) as [u|]; cbn; [|repeat split; auto].
  destruct (outage b) as [e|]; cbn.
  { split; [auto|]. split; [lia|]. left. discriminate. }
  destruct (eqb_str (uid u) f); cbn.
  { split; [auto|]. split; [lia|]. left. discriminate. }
  destruct (existsb _ (follows b)); cbn.
  { split; [auto|]. split; [lia|]. left. discriminate. }
  destruct (profile_exists b (uid u) && profile_exists b f); cbn.
  - split; [intros H; contradiction|]. split; [rewrite length_app; simpl; lia|].
    right. reflexivity.
  - split; [auto|]. split; [lia|]. left. discriminate.
Qed.

Lemma followUser_all_or_nothing_witness :
  follows (snd (followUser (js "nobody") (signedIn []))) = [].
Proof.
  destruct (followUser_all_or_nothing (signedIn []) (js "nobody"))
    as (Hsame & _).
  apply Hsame. rewrite followUser_eq. cbn. discriminate.
Defined.

Lemma consistent_signedIn : consistent (signedIn []).
Proof.
  split; [|split; [|split]].
  - repeat constructor; simpl; intuition discriminate.
  - repeat constructor; simpl; intuition discriminate.
  - constructor.
  - intros r [].
Qed.

(** X5. [followUser] and [unfollowUser] keep the constraints of the two
    migrations: user names and ids of [profiles] unique, the pairs of
    [follows] unique, no row of [follows] with follower = following. *)
Theorem constraints_are_kept (b : Backend) (f : jsstring) :
  consistent b ->
  consistent (snd (followUser f b)) /\ consistent (snd (unfollowUser f b)).
Proof.
  intros Hc. split;
    [now apply consistent_followUser | now apply consistent_unfollowUser].
Qed.

Lemma constraints_are_kept_witness :
  consistent (snd (followUser (js "bob") (signedIn []))).
Proof.
  apply (constraints_are_kept (signedIn []) (js "bob") consistent_signedIn).
Defined.

(** X6. [checkUsernameAvailability], the table answering and user names
    unique: the answer is [{ available: false, error: null }] when a row
    that the caller may read under the SELECT policies has the lower-cased
    name, and [{ available: true, error: null }] when none has; the call
    sends the one statement [select username ... eq(username, lower-cased
    name)] and changes neither table. *)
Theorem availability_of_readable_rows `{Runtime} (b : Backend)
    (name : jsstring) :
  NoDup (map username (profiles b)) ->
  outage b = None ->
  let readable r := profiles_select_policy b r
                    && eqb_str (username r) (toLowerCase name) in
  (existsb readable (profiles b) = true ->
     fst (checkUsernameAvailability name b) =
       Fulfilled {| available := Some false; availability_error := None |})
  /\ (existsb readable (profiles b) = false ->
       fst (checkUsernameAvailability name b) =
         Fulfilled {| available := Some true; availability_error := None |})
  /\ sent (snd (checkUsernameAvailability name b)) =
       sent b ++ [SelectProfileByUsername (toLowerCase name)]
  /\ profiles (snd (checkUsernameAvailability name b)) = profiles b
  /\ follows (snd (checkUsernameAvailability name b)) = follows b.
Proof.
  intros Hnd Ho. cbv zeta.
  pose proof (checkUsernameAvailability_readable b name Hnd Ho) as Hr.
  split; [|split].
  - intros E. rewrite Hr, E. reflexivity.
  - intros E. rewrite Hr, E. reflexivity.
  - rewrite checkUsernameAvailability_eq. cbn. rewrite Ho. repeat split.
Qed.

Lemma availability_of_readable_rows_witness :
  fst (@checkUsernameAvailability basicLatin (js "ADMIN") (signedIn [])) =
    Fulfilled {| available := Some false; availability_error := None |}.
Proof.
  assert (Hnd : NoDup (map username (profiles (signedIn []))))
    by (repeat constructor; simpl; intuition discriminate).
  destruct (@availability_of_readable_rows basicLatin (signedIn [])
              (js "ADMIN") Hnd eq_refl) as (Ht & _).
  apply Ht. vm_compute. reflexivity.
Defined.

Lemma counters_eq (p q : Counters) :
  profile_id p = profile_id q -> followers_count p = followers_count q ->
  following_count p = following_count q -> p = q.
Proof. destruct p, q. cbn. intros -> -> ->. reflexivity. Qed.

Lemma update_follow_counts_map (ev : TriggerEvent) (ps : list Counters) :
  update_follow_counts ev ps = map (bumped ev) ps.
Proof.
  destruct ev as [r|r]; unfold update_follow_counts, add_followers,
    add_following; rewrite map_map; apply map_ext; intros p;
    unfold bumped;
    destruct (eqb_str (profile_id p) (follower_id r)) eqn:E1;
    cbn [profile_id followers_count following_count];
    destruct (eqb_str (profile_id p) (following_id r)) eqn:E2;
    apply counters_eq; cbn [profile_id followers_count following_count];
    try reflexivity; lia.
Qed.

Lemma followersOf_app (i : jsstring) (l r : list FollowRow) :
  followersOf i (l ++ r) = followersOf i l + followersOf i r.
Proof. unfold followersOf. rewrite filter_app, length_app. lia. Qed.

Lemma followingOf_app (i : jsstring) (l r : list FollowRow) :
  followingOf i (l ++ r) = followingOf i l + followingOf i r.
Proof. unfold followingOf. rewrite filter_app, length_app. lia. Qed.

Lemma followersOf_one (i : jsstring) (r : FollowRow) :
  followersOf i [r] = if eqb_str i (following_id r) then 1 else 0.
Proof.
  unfold followersOf. simpl. rewrite (eqb_str_sym (following_id r) i).
  destruct (eqb_str i (following_id r)); reflexivity.
Qed.

Lemma followingOf_one (i : jsstring) (r : FollowRow) :
  followingOf i [r] = if eqb_str i (follower_id r) then 1 else 0.
Proof.
  unfold followingOf. simpl. rewrite (eqb_str_sym (follower_id r) i).
  destruct (eqb_str i (follower_id r)); reflexivity.
Qed.

Lemma counted_insert (ps : list Counters) (fs : list FollowRow) (r : FollowRow) :
  counted ps fs -> counted (update_follow_counts (INSERT r) ps) (fs ++ [r]).
Proof.
  intros Hc p Hin. rewrite update_follow_counts_map in Hin.
  apply in_map_iff in Hin as (p0 & <- & Hp0).
  destruct (Hc p0 Hp0) as [A B]. cbn.
  rewrite followersOf_app, followingOf_app, followersOf_one, followingOf_one.
  lia.
Qed.

Lemma split_count (f g : FollowRow -> bool) (l : list FollowRow) :
  Z.of_nat (List.length (filter f l)) =
  Z.of_nat (List.length (filter f (filter g l)))
  + Z.of_nat (List.length (filter f (filter (fun r => negb (g r)) l))).
Proof.
  induction l as [|r l IH]; [reflexivity|].
  cbn [filter]. destruct (g r); cbn [negb filter];
    destruct (f r); cbn [List.length]; lia.
Qed.

Lemma fire_deletes (ds : list FollowRow) (ps : list Counters) :
  forall p, In p (fire (map DELETE ds) ps) ->
  exists p0, In p0 ps /\ profile_id p = profile_id p0
    /\ followers_count p = followers_count p0 - followersOf (profile_id p0) ds
    /\ following_count p = following_count p0 - followingOf (profile_id p0) ds.
Proof.
  revert ps. induction ds as [|r ds IH]; intros ps p Hin.
  - exists p. cbn in *. repeat split; auto; lia.
  - cbn [map fire fold_left] in Hin.
    apply IH in Hin as (p1 & Hin1 & Hid & Hf & Hg).
    rewrite update_follow_counts_map in Hin1.
    apply in_map_iff in Hin1 as (p0 & <- & Hp0).
    exists p0. cbn in *. split; [exact Hp0|]. split; [exact Hid|].
    change (r :: ds) with ([r] ++ ds).
    rewrite followersOf_app, followingOf_app, followersOf_one, followingOf_one.
    lia.
Qed.

(** X7. The trigger [update_follow_counts] keeps the counts in step with
    the calls of lib/database.ts: if every profile's [followers_count] and
    [following_count] are the numbers of its edges in [follows], they still
    are after a [followUser] that succeeded (the trigger run for the new
    row), after one that failed (no trigger run), and after an
    [unfollowUser] (the trigger run for each deleted row). *)
Theorem counts_follow_edges (b : Backend) (u : User) (f : jsstring)
    (ps : list Counters) :
  session b = Some u ->
  counted ps (follows b) ->
  (succeeded (fst (followUser f b)) ->
     counted (fire [INSERT (edge u f)] ps) (follows (snd (followUser f b))))
  /\ (failure (fst (followUser f b)) ->
       counted ps (follows (snd (followUser f b))))
  /\ (outage b = None ->
       counted (fire (map DELETE (deleted (uid u) f (follows b))) ps)
         (follows (snd (unfollowUser f b)))).
Proof.
  intros Hs Hc. split; [|split].
  - intros Hok. destruct (followUser_success b u f Hs Hok) as (Hf & _).
    rewrite Hf. cbn [fire fold_left]. now apply counted_insert.
  - intros Hfail. now rewrite (followUser_failure_keeps b f Hfail).
  - intros Ho. rewrite unfollowUser_eq, Hs. cbn. rewrite Ho. cbn.
    intros p Hin. apply fire_deletes in Hin as (p0 & Hp0 & Hid & Hf & Hg).
    destruct (Hc p0 Hp0) as [A B]. rewrite Hid, Hf, Hg, A, B.
    unfold followersOf, followingOf, deleted.
    rewrite (split_count (fun r => eqb_str (following_id r) (profile_id p0))
               (edge_is (uid u) f) (follows b)).
    rewrite (split_count (fun r => eqb_str (follower_id r) (profile_id p0))
               (edge_is (uid u) f) (follows b)).
    lia.
Qed.

Lemma counts_follow_edges_witness :
  counted
    [ {| profile_id := js "ann"; followers_count := 0; following_count := 1 |};
      {| profile_id := js "bob"; followers_count := 1; following_count := 0 |} ]
    (follows (snd (followUser (js "bob") (signedIn [])))).
Proof.
  assert (Hc : counted
    [ {| profile_id := js "ann"; followers_count := 0; following_count := 0 |};
      {| profile_id := js "bob"; followers_count := 0; following_count := 0 |} ]
    (follows (signedIn []))).
  { intros p [<-|[<-|[]]]; split; reflexivity. }
  assert (Hok : succeeded (fst (followUser (js "bob") (signedIn []))))
    by (rewrite followUser_eq; reflexivity).
  destruct (counts_follow_edges (signedIn []) ann (js "bob") _ eq_refl Hc)
    as (Hins & _).
  exact (Hins Hok).
Defined.

End FollowFacts.

(* ================================================================== *)
(** * components/SignupFlow.tsx: the whole component                   *)
(* ================================================================== *)

Module PageFacts.

Import JsFacts SignupFlow Notions Fixtures Screen PageNotions WizardFacts.
Local Open Scope Z_scope.

(** ** Every gesture keeps the page sound *)

Section Pages.
Context `{Runtime}.

Lemma ui_commit (before : State) (x : Session) : ui (commit before x) = ui x.
Proof.
  unfold commit, usernameEffect.
  destruct (_ && _); [reflexivity|].
  destruct (_ && _); reflexivity.
Qed.

Lemma ui_render (f : State -> State) (x : Session) :
  ui (render f x) = f (ui x).
Proof. unfold render. now rewrite ui_commit. Qed.

Lemma sameForm_refl (s : State) : sameForm s s.
Proof. repeat split. Qed.

Lemma sameForm_trans (a b c : State) :
  sameForm a b -> sameForm b c -> sameForm a c.
Proof.
  intros (A1 & A2 & A3 & A4) (B1 & B2 & B3 & B4).
  repeat split; congruence.
Qed.

Lemma settleDue_form (t : Z) (pending : list Check) (u : State) :
  sameForm u (snd (settleDue t pending u)).
Proof.
  revert u. induction pending as [|c rest IH]; intros u; simpl.
  - apply sameForm_refl.
  - destruct (issuedAt c + 500 <=? t).
    + eapply sameForm_trans; [|apply IH]. repeat split.
    + specialize (IH u). destruct (settleDue t rest u). exact IH.
Qed.

Lemma runTimers_form (b : Build) (t : Z) (x : Session) :
  sameForm (ui x) (ui (runTimers b t x)).
Proof.
  destruct b; [|apply sameForm_refl]. unfold runTimers.
  pose proof (settleDue_form t (inFlight x) (ui x)) as Hf.
  destruct (settleDue t (inFlight x) (ui x)). exact Hf.
Qed.

Lemma check_form (name : jsstring) (t : Z) (x : Session) :
  sameForm (ui x) (ui (SignupFlow.checkUsernameAvailability name t x)).
Proof.
  unfold SignupFlow.checkUsernameAvailability.
  destruct (len name <? 3); repeat split.
Qed.

Lemma elapse_form (b : Build) (dt : Z) (x : Session) :
  sameForm (ui x) (ui (elapse b dt x)).
Proof.
  unfold elapse. destruct (dt <? 0); [apply sameForm_refl|].
  destruct (debounceTimeout x) as [tm|].
  - destruct (fireAt tm <=? now x + dt).
    + cbn [setNow ui].
      eapply sameForm_trans; [|apply runTimers_form].
      eapply sameForm_trans; [|apply check_form].
      cbn [setDebounce ui]. apply runTimers_form.
    + cbn [setNow ui]. apply runTimers_form.
  - cbn [setNow ui]. apply runTimers_form.
Qed.

Lemma answer_form (b : Build) (i : nat) (r : Lookup) (x : Session) :
  sameForm (ui x) (ui (answer b i r x)).
Proof.
  unfold answer. destruct b; [apply sameForm_refl|].
  destruct (find _ (inFlight x)); [|apply sameForm_refl].
  repeat split.
Qed.


Lemma stateOk_form (s s' : State) : sameForm s s' -> stateOk s -> stateOk s'.
Proof.
  intros (M & S & D & _) (E & W & C). unfold stateOk, earlierOk.
  rewrite M, S, D. auto.
Qed.

Lemma indexOf_inj (a c : SignupStep) :
  indexOf steps a = indexOf steps c -> a = c.
Proof. destruct a, c; intros E; try reflexivity; discriminate E. Qed.

Lemma fieldsOk_of_canProceed (s : State) :
  canProceedToNext s = true -> fieldsOk (signupStep s) (authData s) = true.
Proof.
  unfold canProceedToNext, fieldsOk.
  destruct (signupStep s); auto.
  intros E. apply andb_true_iff in E. tauto.
Qed.

Lemma earlierOk_first (s : State) : signupStep s = Email -> earlierOk s.
Proof.
  intros E _ st Hlt. rewrite E in Hlt.
  pose proof (indexOf_range st). change (indexOf steps Email) with 0 in Hlt. lia.
Qed.

Lemma stateOk_createAccount (s : State) :
  stateOk (resetSignup (setSignupStep Email (setAuthMode Signup s))).
Proof.
  split; [apply earlierOk_first; reflexivity|]. split; [reflexivity|].
  unfold choicesOk. cbn.
  split; [now left|]. split; [now left|]. split; [constructor|].
  intros x [].
Qed.

Lemma stateOk_setAuthMode (m : AuthMode) (s : State) :
  m <> Signup -> signupStep s = Email -> stateOk s -> stateOk (setAuthMode m s).
Proof.
  intros Hm He (_ & _ & C). split; [|split; [|exact C]].
  - intros E. cbn in E. contradiction.
  - intros _. exact He.
Qed.

Lemma stateOk_goToPreviousStep (s : State) :
  authMode s = Signup -> stateOk s -> stateOk (goToPreviousStep s).
Proof.
  intros Hm (E & W & C). unfold goToPreviousStep.
  destruct (0 <? indexOf steps (signupStep s)) eqn:Hpos.
  - apply Z.ltb_lt in Hpos.
    destruct (previous_index_defined (signupStep s) Hpos) as (st' & Hat & Hidx).
    rewrite Hat. split; [|split; [|exact C]].
    + intros _ st Hlt.
      cbn [setSignupStep authMode signupStep authData] in *.
      apply E; [exact Hm|]. lia.
    + cbn [setSignupStep authMode]. intros Hn. contradiction.
  - apply Z.ltb_ge in Hpos. pose proof (indexOf_range (signupStep s)).
    apply stateOk_setAuthMode; [discriminate| |exact (conj E (conj W C))].
    apply indexOf_inj. change (indexOf steps Email) with 0. lia.
Qed.

Lemma fieldsOk_assign (s : State) (u : Update) (st : SignupStep) :
  authMode s = Signup -> offered s u = true ->
  indexOf steps st < indexOf steps (signupStep s) ->
  fieldsOk st (assign u (authData s)) = fieldsOk st (authData s).
Proof.
  unfold offered. intros -> Hoff Hlt.
  destruct (authData s) as [e p c f l g a co us i]. 
  destruct (signupStep s), u; try discriminate Hoff;
    destruct st; try (vm_compute in Hlt; discriminate Hlt); reflexivity.
Qed.

Lemma choicesOk_assign (s : State) (u : Update) :
  offered s u = true -> choicesOk (authData s) ->
  choicesOk (assign u (authData s)).
Proof.
  unfold offered, choicesOk. intros Hoff (G & Co & Nd & Inc).
  destruct (authData s) as [e p c f l g a co us i].
  cbn [gender country interests] in *.
  destruct (authMode s); [discriminate| |].
  - destruct u; try discriminate Hoff; cbn [assign gender country interests];
      auto.
  - destruct (signupStep s), u; try discriminate Hoff;
      cbn [assign gender country interests]; auto;
      apply includes_In in Hoff; auto.
Qed.

Lemma stateOk_updateAuthData (s : State) (u : Update) :
  offered s u = true -> stateOk s -> stateOk (updateAuthData u s).
Proof.
  intros Hoff (E & W & C). split; [|split].
  - intros Hm st Hlt. unfold updateAuthData in *.
    cbn [setAuthData authMode signupStep authData] in *.
    rewrite fieldsOk_assign; auto.
  - exact W.
  - now apply choicesOk_assign.
Qed.

Lemma stateOk_handleInterestToggle (s : State) (i : jsstring) :
  signupStep s = Interests -> In i interestIds ->
  stateOk s -> stateOk (handleInterestToggle i s).
Proof.
  intros Hst Hi (E & W & (G & Co & Nd & Inc)).
  assert (Hs : authMode (handleInterestToggle i s) = authMode s
               /\ signupStep (handleInterestToggle i s) = signupStep s).
  { unfold handleInterestToggle. destruct (includes _ i); split; reflexivity. }
  destruct Hs as [Hm Hs].
  assert (Hd : forall st, st <> Interests ->
            fieldsOk st (authData (handleInterestToggle i s)) =
            fieldsOk st (authData s)).
  { intros st Hne. unfold handleInterestToggle, updateAuthData.
    destruct (includes _ i); cbn [setAuthData authData];
      destruct (authData s); destruct st; try reflexivity; congruence. }
  split; [|split].
  - intros Hmode st Hlt. rewrite Hm in Hmode. rewrite Hs in Hlt.
    rewrite Hd; [apply E; assumption|].
    intros ->. rewrite Hst in Hlt. lia.
  - rewrite Hm, Hs. exact W.
  - assert (Hg : gender (authData (handleInterestToggle i s))
                 = gender (authData s)
                 /\ country (authData (handleInterestToggle i s))
                    = country (authData s)).
    { unfold handleInterestToggle, updateAuthData.
      destruct (includes _ i); cbn [setAuthData authData];
        destruct (authData s); split; reflexivity. }
    destruct Hg as [Hg Hc].
    unfold choicesOk. rewrite Hg, Hc, toggle_interests.
    split; [exact G|]. split; [exact Co|].
    destruct (includes (interests (authData s)) i) eqn:Hinc.
    + split; [apply NoDup_filter, Nd|].
      intros x Hx. apply in_without in Hx. apply Inc. tauto.
    + split.
      * eapply Permutation_NoDup; [apply Permutation_cons_append|].
        constructor; [|exact Nd].
        intros Hin. apply includes_In in Hin. congruence.
      * intros x Hx. apply in_app_or in Hx as [Hx|[<-|[]]]; auto.
Qed.

Lemma stateOk_beginNextStep (s : State) :
  authMode s = Signup -> canProceedToNext s = true -> stateOk s ->
  stateOk (fst (fst (beginNextStep s)))
  /\ (snd (beginNextStep s) = [] ->
        isLoading (fst (fst (beginNextStep s))) = isLoading s
        /\ snd (fst (beginNextStep s)) = [])
  /\ (snd (beginNextStep s) <> [] ->
        snd (beginNextStep s) = [AwaitSignUp]
        /\ isLoading (fst (fst (beginNextStep s))) = true
        /\ signupStep s = Interests
        /\ snd (fst (beginNextStep s)) = [FromSignup (signUpCall (authData s))]).
Proof.
  intros Hm Hcan (E & W & C). unfold beginNextStep.
  destruct (indexOf steps (signupStep s) <? Z.of_nat (List.length steps) - 1)
    eqn:Hlt.
  - apply Z.ltb_lt in Hlt.
    destruct (next_index_defined (signupStep s) Hlt) as (st' & Hat & Hidx).
    rewrite Hat. cbn [fst snd]. split; [|split].
    + split; [|split; [|exact C]].
      * intros _ st Hst.
        cbn [setSignupStep authMode signupStep authData] in *.
        destruct (Z.eq_dec (indexOf steps st) (indexOf steps (signupStep s)))
          as [Heq|Hne].
        -- apply indexOf_inj in Heq. subst st.
           now apply fieldsOk_of_canProceed.
        -- apply E; [exact Hm|]. lia.
      * cbn [setSignupStep authMode]. intros Hn. contradiction.
    + intros _. split; reflexivity.
    + intros Hn. contradiction.
  - apply Z.ltb_ge in Hlt. cbn [fst snd]. split; [|split].
    + exact (conj E (conj W C)).
    + intros Hn. discriminate Hn.
    + intros _. repeat split.
      apply indexOf_inj. pose proof (indexOf_range (signupStep s)).
      change (indexOf steps Interests) with 8.
      change (Z.of_nat (List.length steps) - 1) with 8 in Hlt. lia.
Qed.


Lemma stateOk_setIsLoading (v : bool) (s : State) :
  stateOk s -> stateOk (setIsLoading v s).
Proof. intros (E & W & C). exact (conj E (conj W C)). Qed.

Lemma wf_render (f : State -> State) (p : Page) :
  stateOk (f (ui (page p))) ->
  isLoading (f (ui (page p))) = isLoading (ui (page p)) ->
  wellFormed p -> wellFormed (withPage (render f (page p)) p).
Proof.
  intros Hok Hl (_ & L & N). unfold wellFormed.
  cbn [withPage page awaiting]. rewrite ui_render, Hl. auto.
Qed.

Lemma wf_form (x' : Session) (p : Page) :
  sameForm (ui (page p)) (ui x') ->
  wellFormed p -> wellFormed (withPage x' p).
Proof.
  intros Hf (Hok & L & N). unfold wellFormed. cbn [withPage page awaiting].
  split; [eapply stateOk_form; eassumption|].
  destruct Hf as (_ & _ & _ & ->). auto.
Qed.

Lemma sound_withPage (x' : Session) (p : Page) :
  wellFormed (withPage x' p) -> sound p -> sound (withPage x' p).
Proof. intros Hw [_ Ho]. split; assumption. Qed.

Lemma idle_of_wellFormed (p : Page) :
  wellFormed p -> isLoading (ui (page p)) = false -> awaiting p = [].
Proof.
  intros (_ & L & _) Hl. destruct (awaiting p) as [|c l] eqn:E; [reflexivity|].
  assert (Ht : isLoading (ui (page p)) = true) by (apply L; discriminate).
  congruence.
Qed.

Lemma sound_handleLogin (p : Page) :
  isLoading (ui (page p)) = false ->
  sound p -> sound (start handleLogin p).
Proof.
  intros Hl [Hw Ho]. pose proof (idle_of_wellFormed p Hw Hl) as Hidle.
  destruct Hw as (Hok & L & N).
  unfold start, handleLogin.
  destruct (eqb_str (email (authData (ui (page p)))) []
            || eqb_str (password (authData (ui (page p)))) []) eqn:Hempty.
  - split; [|cbn; now rewrite app_nil_r].
    unfold wellFormed. cbn [page awaiting]. rewrite ui_render, app_nil_r. auto.
  - apply orb_false_iff in Hempty as [He Hp].
    apply eqb_str_neq in He, Hp.
    split.
    + unfold wellFormed. cbn [page awaiting]. rewrite ui_render, Hidle.
      split; [now apply stateOk_setIsLoading|].
      split; [|simpl; lia]. split; [discriminate|reflexivity].
    + cbn [outputs]. apply Forall_app. split; [exact Ho|].
      constructor; [|constructor]. split; assumption.
Qed.

Lemma all_fieldsOk (s : State) :
  earlierOk s -> authMode s = Signup -> signupStep s = Interests ->
  canProceedToNext s = true -> forall st, fieldsOk st (authData s) = true.
Proof.
  intros E Hm Hs Hcan st.
  destruct (Z.eq_dec (indexOf steps st) 8) as [Heq|Hne].
  - assert (st = Interests) by (apply indexOf_inj; exact Heq). subst st.
    rewrite <- Hs. now apply fieldsOk_of_canProceed.
  - apply E; [exact Hm|]. rewrite Hs. pose proof (indexOf_range st).
    change (indexOf steps Interests) with 8. lia.
Qed.

Lemma sound_beginNextStep (p : Page) :
  authMode (ui (page p)) = Signup ->
  bottomDisabled (ui (page p)) = false ->
  sound p -> sound (start beginNextStep p).
Proof.
  intros Hm Hdis [Hw Ho]. unfold bottomDisabled in Hdis.
  apply orb_false_iff in Hdis as [Hcan Hl].
  rewrite Hm in Hcan. cbn in Hcan. apply negb_false_iff in Hcan.
  pose proof (idle_of_wellFormed p Hw Hl) as Hidle.
  destruct Hw as (Hok & L & N).
  destruct (stateOk_beginNextStep (ui (page p)) Hm Hcan Hok)
    as (Hok' & Hquiet & Hcall).
  unfold start.
  destruct (beginNextStep (ui (page p))) as [[s' out] calls] eqn:Eb.
  cbn [fst snd] in *.
  destruct calls as [|c calls].
  - destruct (Hquiet eq_refl) as [Hl' ->].
    split; [|cbn; now rewrite app_nil_r].
    unfold wellFormed. cbn [page awaiting]. rewrite ui_render, app_nil_r, Hl'.
    auto.
  - assert (Hne : c :: calls <> []) by discriminate.
    destruct (Hcall Hne) as (Hc & Hl' & Hlast & ->).
    split.
    + unfold wellFormed. cbn [page awaiting]. rewrite ui_render, Hidle, Hc, Hl'.
      split; [exact Hok'|]. split; [|simpl; lia].
      split; [discriminate|reflexivity].
    + cbn [outputs]. apply Forall_app. split; [exact Ho|].
      constructor; [|constructor]. cbn.
      exists (authData (ui (page p))). split; [|split].
      * destruct Hok as (E & _ & _). now apply all_fieldsOk.
      * apply Hok.
      * reflexivity.
Qed.

Lemma awaiting_single (c : Call) (p : Page) :
  wellFormed p -> existsb (call_eqb c) (awaiting p) = true ->
  removeCall c (awaiting p) = [].
Proof.
  intros (_ & _ & N) Hex. destruct (awaiting p) as [|c' [|c'' l]].
  - discriminate.
  - simpl in *. rewrite orb_false_r in Hex. now rewrite Hex.
  - simpl in N. lia.
Qed.

Lemma sound_resume (c : Call) (k : State -> State * list Output) (p : Page) :
  (forall s, stateOk s -> stateOk (fst (k s))
             /\ isLoading (fst (k s)) = false
             /\ Forall validCall (snd (k s))) ->
  sound p -> sound (resume c k p).
Proof.
  intros Hk [Hw Ho]. unfold resume.
  destruct (existsb (call_eqb c) (awaiting p)) eqn:Hex; [|split; assumption].
  pose proof (awaiting_single c p Hw Hex) as Hrem.
  destruct Hw as (Hok & L & N).
  destruct (Hk _ Hok) as (Hok' & Hl' & Hout).
  destruct (k (ui (page p))) as [s' out]. cbn [fst snd] in *.
  split.
  - unfold wellFormed. cbn [page awaiting]. rewrite ui_render, Hrem, Hl'.
    split; [exact Hok'|]. split; [|simpl; lia].
    split; [discriminate|intros Hn; now elim Hn].
  - cbn [outputs]. apply Forall_app. split; assumption.
Qed.

Lemma signUpSettled_ok (o : SignUpOutcome) (s : State) :
  stateOk s ->
  stateOk (fst (signUpSettled o s))
  /\ isLoading (fst (signUpSettled o s)) = false
  /\ Forall validCall (map FromSignup (snd (signUpSettled o s))).
Proof.
  intros Hok. destruct o as [e [msg|]|]; cbn [signUpSettled fst snd].
  - split; [now apply stateOk_setIsLoading|]. split; [reflexivity|].
    repeat constructor.
  - split; [|split; [reflexivity|repeat constructor]].
    apply stateOk_setIsLoading. split; [|split].
    + intros E. discriminate E.
    + reflexivity.
    + unfold choicesOk. cbn.
      split; [now left|]. split; [now left|]. split; [constructor|].
      intros x [].
  - split; [now apply stateOk_setIsLoading|]. split; [reflexivity|].
    repeat constructor.
Qed.

Lemma signInSettled_ok (o : SignInOutcome) (s : State) :
  stateOk s ->
  stateOk (fst (signInSettled o s))
  /\ isLoading (fst (signInSettled o s)) = false
  /\ Forall validCall (snd (signInSettled o s)).
Proof.
  intros Hok. unfold signInSettled. cbn [fst snd].
  split; [now apply stateOk_setIsLoading|]. split; [reflexivity|].
  destruct o as [e [msg|]|]; repeat constructor.
Qed.

(** Every gesture keeps the page sound. *)
Lemma sound_act (b : Build) (p : Page) (g : Gesture) :
  sound p -> sound (act b p g).
Proof.
  intros Hs. pose proof Hs as [Hw Ho]. pose proof Hw as (Hok & L & N).
  pose proof Hok as (E & W & C).
  destruct g as [| | | | |u|i|dt|i r|o|o]; unfold act.
  - destruct (authMode (ui (page p))) eqn:Hm; try exact Hs.
    apply sound_withPage; [|exact Hs].
    apply wf_render; [apply stateOk_createAccount|reflexivity|exact Hw].
  - destruct (authMode (ui (page p))) eqn:Hm; try exact Hs.
    apply sound_withPage; [|exact Hs].
    apply wf_render; [|reflexivity|exact Hw].
    apply stateOk_setAuthMode; [discriminate| |exact Hok].
    apply W. discriminate.
  - destruct (authMode (ui (page p))) eqn:Hm; try exact Hs.
    + apply sound_withPage; [|exact Hs].
      apply wf_render; [|reflexivity|exact Hw].
      apply stateOk_setAuthMode; [discriminate| |exact Hok].
      apply W. discriminate.
    + apply sound_withPage; [|exact Hs].
      apply wf_render; [now apply stateOk_goToPreviousStep| |exact Hw].
      unfold goToPreviousStep.
      destruct (0 <? _); [destruct (at_index _ _)|]; reflexivity.
  - destruct (authMode (ui (page p))) eqn:Hm; try exact Hs.
    + destruct (bottomDisabled (ui (page p))) eqn:Hd; [exact Hs|].
      apply sound_handleLogin; [|exact Hs].
      unfold bottomDisabled in Hd. apply orb_false_iff in Hd. tauto.
    + destruct (bottomDisabled (ui (page p))) eqn:Hd; [exact Hs|].
      now apply sound_beginNextStep.
  - destruct (authMode (ui (page p))) eqn:Hm; try exact Hs.
    destruct (submitDisabled (ui (page p))) eqn:Hd; [exact Hs|].
    apply sound_handleLogin; [|exact Hs].
    unfold submitDisabled in Hd. apply orb_false_iff in Hd as [Hd _].
    apply orb_false_iff in Hd. tauto.
  - destruct (offered (ui (page p)) u) eqn:Hoff; [|exact Hs].
    apply sound_withPage; [|exact Hs].
    apply wf_render; [now apply stateOk_updateAuthData|reflexivity|exact Hw].
  - destruct (authMode (ui (page p))) eqn:Hm; try exact Hs.
    destruct (signupStep (ui (page p))) eqn:Hst; try exact Hs.
    destruct (includes interestIds i) eqn:Hin; [|exact Hs].
    apply includes_In in Hin.
    apply sound_withPage; [|exact Hs].
    apply wf_render; [now apply stateOk_handleInterestToggle| |exact Hw].
    unfold handleInterestToggle. destruct (includes _ i); reflexivity.
  - apply sound_withPage; [|exact Hs]. apply wf_form; [|exact Hw].
    apply elapse_form.
  - apply sound_withPage; [|exact Hs]. apply wf_form; [|exact Hw].
    apply answer_form.
  - apply sound_resume; [|exact Hs]. intros s Hsok.
    pose proof (signUpSettled_ok o s Hsok) as (A1 & A2 & A3).
    destruct (signUpSettled o s). cbn [fst snd] in *. auto.
  - apply sound_resume; [|exact Hs]. intros s Hsok.
    apply signInSettled_ok, Hsok.
Qed.

Lemma sound_boot : sound boot.
Proof.
  split; [|constructor]. split; [|split].
  - split; [apply earlierOk_first; reflexivity|]. split; [reflexivity|].
    unfold choicesOk. cbn.
    split; [now left|]. split; [now left|]. split; [constructor|].
    intros x [].
  - cbn. split; [discriminate|intros Hn; now elim Hn].
  - cbn. lia.
Qed.

Lemma sound_play (b : Build) (gs : list Gesture) (p : Page) :
  sound p -> sound (play b p gs).
Proof.
  revert p. induction gs as [|g gs IH]; intros p Hs; [exact Hs|].
  apply IH, sound_act, Hs.
Qed.

End Pages.

(** ** The timers stay in order *)

Section Pace.
Context `{Runtime}.

Lemma commit_cases (before : State) (x : Session) :
  ui (commit before x) = ui x /\ now (commit before x) = now x
  /\ queries (commit before x) = queries x
  /\ inFlight (commit before x) = inFlight x
  /\ (debounceTimeout (commit before x) = debounceTimeout x
      \/ debounceTimeout (commit before x) = None
      \/ debounceTimeout (commit before x) =
           Some {| fireAt := now x + 500;
                   arg := username (authData (ui x)) |}).
Proof.
  unfold commit, usernameEffect.
  destruct (_ && _); [repeat split; auto|].
  destruct (_ && _); repeat split; auto.
Qed.

Lemma paced_commit (before : State) (x : Session) :
  paced x -> paced (commit before x).
Proof.
  intros (Hq & Hs & Hd & Hc).
  destruct (commit_cases before x) as (Eu & En & Eq & Ei & Ed).
  unfold paced. rewrite Eu, En, Eq, Ei.
  split; [exact Hq|]. split; [exact Hs|]. split; [|exact Hc].
  intros tm Htm. destruct Ed as [Ed|[Ed|Ed]]; rewrite Ed in Htm.
  - now apply Hd.
  - discriminate.
  - injection Htm as <-. cbn. split; [lia|].
    eapply Forall_impl; [|exact Hq]. cbn. intros q Hle. lia.
Qed.

Lemma paced_render (f : State -> State) (x : Session) :
  (checkingUsername (f (ui x)) = true -> checkingUsername (ui x) = true) ->
  paced x -> paced (render f x).
Proof.
  intros Hf (Hq & Hs & Hd & Hc). unfold render. apply paced_commit.
  split; [exact Hq|]. split; [exact Hs|]. split; [exact Hd|].
  cbn. auto.
Qed.

Lemma settleDue_keep (t : Z) (pending : list Check) (u : State) :
  fst (settleDue t pending u) =
  filter (fun c => negb (issuedAt c + 500 <=? t)) pending.
Proof.
  revert u. induction pending as [|c rest IH]; intros u; simpl; [reflexivity|].
  destruct (issuedAt c + 500 <=? t); simpl.
  - apply IH.
  - specialize (IH u). destruct (settleDue t rest u). simpl in *.
    now rewrite IH.
Qed.

Lemma settleDue_spinner (t : Z) (pending : list Check) (u : State) :
  (checkingUsername u = true -> pending <> []) ->
  checkingUsername (snd (settleDue t pending u)) = true ->
  fst (settleDue t pending u) <> [].
Proof.
  revert u. induction pending as [|c rest IH]; intros u Hu; simpl.
  - intros Hc. now apply Hu.
  - destruct (issuedAt c + 500 <=? t).
    + apply IH. cbn. discriminate.
    + destruct (settleDue t rest u). simpl. discriminate.
Qed.

Lemma spinner_runTimers (b : Build) (t : Z) (x : Session) :
  (checkingUsername (ui x) = true -> inFlight x <> []) ->
  checkingUsername (ui (runTimers b t x)) = true ->
  inFlight (runTimers b t x) <> [].
Proof.
  destruct b; [|auto]. unfold runTimers. intros Hx.
  pose proof (settleDue_spinner t (inFlight x) (ui x) Hx) as Hs.
  destruct (settleDue t (inFlight x) (ui x)). exact Hs.
Qed.

Lemma spinner_elapse (b : Build) (dt : Z) (x : Session) :
  (checkingUsername (ui x) = true -> inFlight x <> []) ->
  checkingUsername (ui (elapse b dt x)) = true ->
  inFlight (elapse b dt x) <> [].
Proof.
  intros Hx. unfold elapse. destruct (dt <? 0); [exact Hx|].
  destruct (debounceTimeout x) as [tm|].
  - destruct (fireAt tm <=? now x + dt).
    + cbn [setNow ui inFlight]. apply spinner_runTimers.
      unfold SignupFlow.checkUsernameAvailability.
      destruct (len (arg tm) <? 3).
      * cbn. apply (spinner_runTimers b (fireAt tm) x Hx).
      * cbn. intros _ E. apply app_eq_nil in E as [_ E]. discriminate.
    + cbn [setNow ui inFlight]. now apply spinner_runTimers.
  - cbn [setNow ui inFlight]. now apply spinner_runTimers.
Qed.

Lemma spinner_answer (b : Build) (i : nat) (r : Lookup) (x : Session) :
  (checkingUsername (ui x) = true -> inFlight x <> []) ->
  checkingUsername (ui (answer b i r x)) = true ->
  inFlight (answer b i r x) <> [].
Proof.
  intros Hx. unfold answer. destruct b; [exact Hx|].
  destruct (find _ (inFlight x)); [|exact Hx].
  cbn. discriminate.
Qed.

Lemma StronglySorted_snoc (l : list (Z * jsstring)) (q : Z * jsstring) :
  StronglySorted apart l -> Forall (fun a => apart a q) l ->
  StronglySorted apart (l ++ [q]).
Proof.
  induction 1 as [|a l Hs IH Ha]; intros Hq; simpl.
  - repeat constructor.
  - inversion Hq as [|? ? Haq Hq']; subst. constructor; [now apply IH|].
    apply Forall_app. split; [exact Ha|]. now constructor.
Qed.

Lemma paced_handle (b : Build) (x : Session) (e : Event) :
  (checkingUsername (ui (handle b x e)) = true -> inFlight (handle b x e) <> []) ->
  (forall v, e <> Keystroke v) ->
  paced x -> paced (handle b x e).
Proof.
  intros Hspin Hnk (Hq & Hs & Hd & Hc).
  pose proof (DebounceFacts.timing_handle b x e) as Ht.
  assert (En : now (handle b x e) = t_now (advance (timing x) e))
    by (rewrite <- Ht; reflexivity).
  assert (Ed : debounceTimeout (handle b x e)
               = t_debounce (advance (timing x) e))
    by (rewrite <- Ht; reflexivity).
  assert (Eq : queries (handle b x e) = t_queries (advance (timing x) e))
    by (rewrite <- Ht; reflexivity).
  unfold paced. rewrite En, Ed, Eq. clear Ht En Ed Eq.
  split; [|split; [|split; [|exact Hspin]]];
    destruct e as [v|dt|i r]; try (now elim (Hnk v)); unfold advance;
    cbn [timing t_now t_debounce t_queries t_step t_name];
    try assumption.
  - destruct (dt <? 0) eqn:Hdt; [exact Hq|]. apply Z.ltb_ge in Hdt.
    assert (Hq' : Forall (fun q => fst q <= now x + dt) (queries x)).
    { eapply Forall_impl; [|exact Hq]. cbn. intros q Hle. lia. }
    destruct (debounceTimeout x) as [tm|]; [|exact Hq'].
    destruct (fireAt tm <=? now x + dt) eqn:Hf; [|exact Hq'].
    cbn. destruct (len (arg tm) <? 3); [exact Hq'|].
    apply Forall_app. split; [exact Hq'|]. constructor; [|constructor].
    cbn. now apply Z.leb_le.
  - destruct (dt <? 0) eqn:Hdt; [exact Hs|].
    destruct (debounceTimeout x) as [tm|] eqn:Htm; [|exact Hs].
    destruct (fireAt tm <=? now x + dt); [|exact Hs].
    cbn. destruct (len (arg tm) <? 3); [exact Hs|].
    apply StronglySorted_snoc; [exact Hs|].
    destruct (Hd tm eq_refl) as [_ Hall]. exact Hall.
  - destruct (dt <? 0) eqn:Hdt; [exact Hd|]. apply Z.ltb_ge in Hdt.
    destruct (debounceTimeout x) as [tm|] eqn:Htm.
    + destruct (fireAt tm <=? now x + dt) eqn:Hf; cbn.
      * intros tm' E. discriminate E.
      * intros tm' E. injection E as <-. apply Z.leb_gt in Hf.
        split; [exact Hf|]. apply (Hd tm eq_refl).
    + cbn. intros tm' E. discriminate E.
Qed.

Lemma paced_elapse (b : Build) (dt : Z) (x : Session) :
  paced x -> paced (elapse b dt x).
Proof.
  intros Hp. apply (paced_handle b x (Elapse dt)); [|discriminate|exact Hp].
  apply spinner_elapse, Hp.
Qed.

Lemma paced_answer (b : Build) (i : nat) (r : Lookup) (x : Session) :
  paced x -> paced (answer b i r x).
Proof.
  intros Hp. apply (paced_handle b x (Answer i r)); [|discriminate|exact Hp].
  apply spinner_answer, Hp.
Qed.

Lemma paced_start (h : State -> State * list Output * list Call) (p : Page) :
  calm (fun s => fst (fst (h s))) -> paced (page p) -> paced (page (start h p)).
Proof.
  intros Hh Hp. unfold start. specialize (Hh (ui (page p))). cbv beta in Hh.
  destruct (h (ui (page p))) as [[s' out] calls]. cbn [page fst] in *.
  apply paced_render; assumption.
Qed.

Lemma paced_resume (c : Call) (k : State -> State * list Output) (p : Page) :
  calm (fun s => fst (k s)) -> paced (page p) -> paced (page (resume c k p)).
Proof.
  intros Hk Hp. unfold resume. specialize (Hk (ui (page p))). cbv beta in Hk.
  destruct (existsb _ (awaiting p)); [|exact Hp].
  destruct (k (ui (page p))) as [s' out]. cbn [page fst] in *.
  apply paced_render; assumption.
Qed.

Lemma calm_handleLogin : calm (fun s => fst (fst (handleLogin s))).
Proof.
  intros s. unfold handleLogin. destruct (_ || _); cbn; auto.
Qed.

Lemma calm_beginNextStep : calm (fun s => fst (fst (beginNextStep s))).
Proof.
  intros s. unfold beginNextStep.
  destruct (_ <? _); [destruct (at_index _ _)|]; cbn; auto.
Qed.

Lemma calm_goToPreviousStep : calm goToPreviousStep.
Proof.
  intros s. unfold goToPreviousStep.
  destruct (0 <? _); [destruct (at_index _ _)|]; cbn; auto.
Qed.

Lemma calm_handleInterestToggle (i : jsstring) : calm (handleInterestToggle i).
Proof.
  intros s. unfold handleInterestToggle. destruct (includes _ i); cbn; auto.
Qed.

Lemma calm_signUpSettled (o : SignUpOutcome) :
  calm (fun s => fst (let (s', fx) := signUpSettled o s in
                      (s', map FromSignup fx))).
Proof.
  intros s. destruct o as [e [msg|]|]; cbn; auto. discriminate.
Qed.

Lemma calm_signInSettled (o : SignInOutcome) :
  calm (fun s => fst (signInSettled o s)).
Proof. intros s. cbn. auto. Qed.

Lemma paced_act (b : Build) (p : Page) (g : Gesture) :
  paced (page p) -> paced (page (act b p g)).
Proof.
  intros Hp. destruct g as [| | | | |u|i|dt|i r|o|o]; unfold act.
  - destruct (authMode _); try exact Hp.
    cbn [withPage page]. apply paced_render; [|exact Hp]. cbn. discriminate.
  - destruct (authMode _); try exact Hp.
    cbn [withPage page]. apply paced_render; [|exact Hp]. cbn. auto.
  - destruct (authMode _); try exact Hp; cbn [withPage page];
      apply paced_render; try exact Hp; [cbn; auto|apply calm_goToPreviousStep].
  - destruct (authMode _); try exact Hp;
      destruct (bottomDisabled _); try exact Hp;
      apply paced_start; try exact Hp;
      [apply calm_handleLogin|apply calm_beginNextStep].
  - destruct (authMode _); try exact Hp.
    destruct (submitDisabled _); try exact Hp.
    apply paced_start; [apply calm_handleLogin|exact Hp].
  - destruct (offered _ u); [|exact Hp].
    cbn [withPage page]. apply paced_render; [|exact Hp]. cbn. auto.
  - destruct (authMode _); try exact Hp.
    destruct (signupStep _); try exact Hp.
    destruct (includes interestIds i); [|exact Hp].
    cbn [withPage page]. apply paced_render; [|exact Hp].
    apply calm_handleInterestToggle.
  - cbn [withPage page]. now apply paced_elapse.
  - cbn [withPage page]. now apply paced_answer.
  - apply paced_resume; [apply calm_signUpSettled|exact Hp].
  - apply paced_resume; [apply calm_signInSettled|exact Hp].
Qed.

Lemma paced_play (b : Build) (gs : list Gesture) (p : Page) :
  paced (page p) -> paced (page (play b p gs)).
Proof.
  revert p. induction gs as [|g gs IH]; intros p Hp; [exact Hp|].
  apply IH, paced_act, Hp.
Qed.

Lemma paced_boot : paced (page boot).
Proof.
  split; [constructor|]. split; [constructor|]. split.
  - intros tm E. discriminate E.
  - cbn. discriminate.
Qed.

End Pace.

(** ** The mock check is alone *)

Section Solo.
Context `{Runtime}.

Lemma solo_commit (before : State) (x : Session) :
  solo x -> solo (commit before x).
Proof.
  intros (Hn & Hi & Hd).
  destruct (commit_cases before x) as (Eu & En & Eq & Ei & Ed).
  unfold solo. rewrite En, Ei.
  split; [exact Hn|]. split; [exact Hi|].
  intros tm Htm. destruct Ed as [Ed|[Ed|Ed]]; rewrite Ed in Htm.
  - now apply Hd.
  - discriminate.
  - injection Htm as <-. cbn.
    eapply Forall_impl; [|exact Hi]. cbn. intros c Hc. lia.
Qed.

Lemma solo_render (f : State -> State) (x : Session) :
  solo x -> solo (render f x).
Proof. intros Hs. unfold render. apply solo_commit. exact Hs. Qed.

Lemma runTimers_mock (t : Z) (x : Session) :
  inFlight (runTimers MockCheck t x) =
    filter (fun c => negb (issuedAt c + 500 <=? t)) (inFlight x)
  /\ now (runTimers MockCheck t x) = now x
  /\ debounceTimeout (runTimers MockCheck t x) = debounceTimeout x.
Proof.
  unfold runTimers.
  pose proof (settleDue_keep t (inFlight x) (ui x)) as Hk.
  destruct (settleDue t (inFlight x) (ui x)). cbn in *. auto.
Qed.

Lemma filter_length_le (f : Check -> bool) (l : list Check) :
  (List.length (filter f l) <= List.length l)%nat.
Proof.
  induction l as [|c l IH]; simpl; [lia|]. destruct (f c); simpl; lia.
Qed.

Lemma kept_fresh (t : Z) (l : list Check) :
  Forall (fun c => issuedAt c <= t) l ->
  Forall (fun c => issuedAt c <= t < issuedAt c + 500)
    (filter (fun c => negb (issuedAt c + 500 <=? t)) l).
Proof.
  intros Hl. apply Forall_forall. intros c Hc.
  apply filter_In in Hc as [Hin Hnd].
  rewrite Forall_forall in Hl. specialize (Hl c Hin).
  apply negb_true_iff, Z.leb_gt in Hnd. lia.
Qed.

Lemma solo_elapse (dt : Z) (x : Session) :
  solo x -> solo (elapse MockCheck dt x).
Proof.
  intros (Hn & Hi & Hd). unfold elapse.
  destruct (dt <? 0) eqn:Hdt; [exact (conj Hn (conj Hi Hd))|].
  apply Z.ltb_ge in Hdt.
  assert (Hold : Forall (fun c => issuedAt c <= now x + dt) (inFlight x)).
  { eapply Forall_impl; [|exact Hi]. cbn. intros c Hc. lia. }
  assert (Hquiet : forall d,
            debounceTimeout x = d ->
            (forall tm, d = Some tm -> now x + dt < fireAt tm) ->
            solo (setNow (now x + dt) (runTimers MockCheck (now x + dt) x))).
  { intros d Ed Hlate.
    destruct (runTimers_mock (now x + dt) x) as (Ei & En & Edb).
    unfold solo. cbn [setNow now inFlight debounceTimeout]. rewrite Ei, Edb.
    split; [pose proof (filter_length_le
              (fun c => negb (issuedAt c + 500 <=? now x + dt)) (inFlight x));
            lia|].
    split; [now apply kept_fresh|].
    intros tm Htm. specialize (Hd tm Htm).
    apply Forall_forall. intros c Hc. apply filter_In in Hc as [Hc _].
    rewrite Forall_forall in Hd. now apply Hd. }
  destruct (debounceTimeout x) as [tm|] eqn:Htm.
  - destruct (fireAt tm <=? now x + dt) eqn:Hf.
    + apply Z.leb_le in Hf.
      destruct (runTimers_mock (fireAt tm) x) as (Ei & En & Edb).
      assert (Hgone : inFlight (runTimers MockCheck (fireAt tm) x) = []).
      { rewrite Ei. specialize (Hd tm eq_refl).
        clear - Hd. induction Hd as [|c l Hc Hl IH]; [reflexivity|].
        simpl. assert (E : (issuedAt c + 500 <=? fireAt tm) = true)
          by now apply Z.leb_le.
        rewrite E. exact IH. }
      set (x2 := SignupFlow.checkUsernameAvailability (arg tm) (fireAt tm)
                   (setDebounce None (runTimers MockCheck (fireAt tm) x))).
      assert (H2 : debounceTimeout x2 = None
                   /\ (inFlight x2 = []
                       \/ exists c, inFlight x2 = [c]
                                    /\ issuedAt c = fireAt tm)).
      { unfold x2, SignupFlow.checkUsernameAvailability.
        destruct (len (arg tm) <? 3);
          cbn [inFlight debounceTimeout setUi setDebounce]; rewrite Hgone.
        - auto.
        - split; [reflexivity|]. right. eexists. split; reflexivity. }
      destruct H2 as [Hnone Hfl].
      destruct (runTimers_mock (now x + dt) x2) as (Ei2 & En2 & Edb2).
      unfold solo. cbn [setNow now inFlight debounceTimeout].
      rewrite Ei2, Edb2, Hnone.
      split; [|split; [|intros tm' E; discriminate E]].
      * eapply Nat.le_trans; [apply filter_length_le|].
        destruct Hfl as [->|(c & -> & _)]; simpl; lia.
      * apply kept_fresh.
        destruct Hfl as [->|(c & -> & Hc)]; [constructor|].
        constructor; [lia|constructor].
    + apply Z.leb_gt in Hf. apply (Hquiet (Some tm) eq_refl).
      intros tm' E. injection E as <-. exact Hf.
  - apply (Hquiet None eq_refl). intros tm' E. discriminate E.
Qed.

Lemma solo_act (p : Page) (g : Gesture) :
  solo (page p) -> solo (page (act MockCheck p g)).
Proof.
  intros Hp. destruct g as [| | | | |u|i|dt|i r|o|o]; unfold act.
  - destruct (authMode _); try exact Hp. now apply solo_render.
  - destruct (authMode _); try exact Hp. now apply solo_render.
  - destruct (authMode _); try exact Hp; now apply solo_render.
  - destruct (authMode _); try exact Hp;
      destruct (bottomDisabled _); try exact Hp; unfold start.
    + destruct (handleLogin _) as [[? ?] ?]. now apply solo_render.
    + destruct (beginNextStep _) as [[? ?] ?]. now apply solo_render.
  - destruct (authMode _); try exact Hp.
    destruct (submitDisabled _); try exact Hp. unfold start.
    destruct (handleLogin _) as [[? ?] ?]. now apply solo_render.
  - destruct (offered _ u); [|exact Hp]. now apply solo_render.
  - destruct (authMode _); try exact Hp.
    destruct (signupStep _); try exact Hp.
    destruct (includes interestIds i); [|exact Hp]. now apply solo_render.
  - cbn [withPage page]. now apply solo_elapse.
  - exact Hp.
  - unfold resume. destruct (existsb _ _); [|exact Hp].
    destruct (signUpSettled o _). now apply solo_render.
  - unfold resume. destruct (existsb _ _); [|exact Hp].
    destruct (signInSettled o _). now apply solo_render.
Qed.

Lemma solo_play (gs : list Gesture) (p : Page) :
  solo (page p) -> solo (page (play MockCheck p gs)).
Proof.
  revert p. induction gs as [|g gs IH]; intros p Hp; [exact Hp|].
  apply IH, solo_act, Hp.
Qed.

Lemma solo_boot : solo (page boot).
Proof.
  split; [cbn; lia|]. split; [constructor|]. intros tm E. discriminate E.
Qed.

End Solo.

(** [goToNextStep], with the outcome of the call given beforehand, is
    [beginNextStep] followed, when a call was made, by [signUpSettled]. *)
Lemma goToNextStep_in_two_parts (o : SignUpOutcome) (s : State) :
  goToNextStep o s =
    match beginNextStep s with
    | (s1, _, []) => (s1, [])
    | (s1, _, _ :: _) =>
        let (s2, fx) := signUpSettled o s1 in
        (s2, signUpCall (authData s) :: fx)
    end.
Proof.
  unfold goToNextStep, beginNextStep.
  destruct (indexOf steps (signupStep s) <? Z.of_nat (List.length steps) - 1).
  - destruct (at_index steps (indexOf steps (signupStep s) + 1)); reflexivity.
  - destruct (signUpSettled o (setIsLoading true s)). reflexivity.
Qed.

(** ** What holds of every page that can be reached *)

Lemma len_ge (a : jsstring) (n : Z) : (n <=? len a) = true <-> n <= len a.
Proof. apply Z.leb_le. Qed.

(** X8. Whatever is done on the page from its first render (buttons
    pressed, fields typed in, options chosen, time passing, checks and auth
    calls settling in any way), a [signUp] call that the component makes
    carries an email with an [@], a password of 8 or more units, non-empty
    names, a gender and a country out of the options of their [Select]s, an
    age that [parseInt] reads as a number from 13 to 120, a user name of 3
    or more units, and at least one interest, the interests being ids of
    the five cards without repetition. *)
Theorem signUp_carries_valid_form `{Runtime} (b : Build) (gs : list Gesture)
    (mail pass : jsstring) (m : Metadata) :
  In (FromSignup (SignUp mail pass m)) (outputs (play b boot gs)) ->
  includesUnit mail 64 = true
  /\ 8 <= len pass
  /\ meta_firstName m <> [] /\ meta_lastName m <> []
  /\ In (meta_gender m) genders
  /\ (exists n, parseInt (meta_age m) = Some n /\ 13 <= n <= 120)
  /\ In (meta_country m) countries
  /\ 3 <= len (meta_username m)
  /\ meta_interests m <> [] /\ NoDup (meta_interests m)
  /\ incl (meta_interests m) interestIds.
Proof.
  intros Hin.
  destruct (sound_play b gs boot sound_boot) as [_ Hall].
  rewrite Forall_forall in Hall. specialize (Hall _ Hin).
  destruct Hall as (d & Hok & (G & Co & Nd & Inc) & Hcall).
  unfold signUpCall in Hcall. injection Hcall as <- <- <-. cbn.
  pose proof (Hok Email) as H1. pose proof (Hok Password) as H2.
  pose proof (Hok Name) as H4. pose proof (Hok Gender) as H5.
  pose proof (Hok Age) as H6. pose proof (Hok Country) as H7.
  pose proof (Hok Username) as H8. pose proof (Hok Interests) as H9.
  cbn [fieldsOk] in *.
  apply andb_true_iff in H1 as [H1 _]. apply Z.leb_le in H2.
  apply andb_true_iff in H4 as [H4a H4b].
  apply len_pos in H4a, H4b, H5, H7.
  apply andb_true_iff in H6 as [H6 H6c]. apply andb_true_iff in H6 as [_ H6b].
  apply Z.leb_le in H8.
  split; [exact H1|]. split; [exact H2|]. split; [exact H4a|].
  split; [exact H4b|]. split; [destruct G; [contradiction|assumption]|].
  split.
  { destruct (parseInt (age d)) as [n|]; [|discriminate].
    exists n. cbn in H6b, H6c. apply Z.leb_le in H6b, H6c. auto. }
  split; [destruct Co; [contradiction|assumption]|]. split; [exact H8|].
  split; [|split; assumption].
  intros E. rewrite E in H9. discriminate.
Qed.

Lemma signUp_carries_valid_form_witness :
  In (FromSignup (signUpCall (authData example)))
     (outputs (@play basicLatin ProfilesCheck boot signupGestures))
  /\ 3 <= len (js "uniqueName42").
Proof.
  assert (Hin : In (FromSignup (signUpCall (authData example)))
                  (outputs (@play basicLatin ProfilesCheck boot signupGestures)))
    by (vm_compute; left; reflexivity).
  split; [exact Hin|].
  destruct (@signUp_carries_valid_form basicLatin ProfilesCheck signupGestures
              _ _ _ Hin) as (_ & _ & _ & _ & _ & _ & _ & Hname & _).
  exact Hname.
Defined.

(** X9. On every page that can be reached: in signup mode the form passes
    the condition of [canProceedToNext] for every step before the current
    one (for the user-name step its length only, not the verdict); outside
    signup mode the step is [email]. *)
Theorem steps_before_are_valid `{Runtime} (b : Build) (gs : list Gesture) :
  let s := ui (page (play b boot gs)) in
  (authMode s = Signup ->
     forall st, indexOf steps st < indexOf steps (signupStep s) ->
                fieldsOk st (authData s) = true)
  /\ (authMode s <> Signup -> signupStep s = Email).
Proof.
  destruct (sound_play b gs boot sound_boot) as [((E & W & _) & _) _].
  split; assumption.
Qed.

Lemma steps_before_are_valid_witness :
  signupStep (ui (page verifiedName)) = Username
  /\ fieldsOk Age (authData (ui (page verifiedName))) = true.
Proof.
  split; [vm_compute; reflexivity|].
  destruct (@steps_before_are_valid basicLatin ProfilesCheck
              (firstn 19 signupGestures)) as [Hs _].
  apply Hs; vm_compute; reflexivity.
Defined.

(** X10. On every page that can be reached gender and country are empty or
    one of the options of their [Select]s, and the interests are ids of the
    five cards without repetition, five at most. *)
Theorem choices_from_the_lists `{Runtime} (b : Build) (gs : list Gesture) :
  let d := authData (ui (page (play b boot gs))) in
  (gender d = [] \/ In (gender d) genders)
  /\ (country d = [] \/ In (country d) countries)
  /\ NoDup (interests d) /\ incl (interests d) interestIds
  /\ (List.length (interests d) <= 5)%nat.
Proof.
  destruct (sound_play b gs boot sound_boot)
    as [((_ & _ & (G & Co & Nd & Inc)) & _) _].
  cbv zeta. repeat (split; [assumption|]).
  apply (NoDup_incl_length Nd Inc).
Qed.

Lemma choices_from_the_lists_witness :
  (List.length
     (interests (authData (ui (page (@play basicLatin ProfilesCheck boot
                                       (firstn 21 signupGestures))))))
   <= 5)%nat.
Proof.
  destruct (@choices_from_the_lists basicLatin ProfilesCheck
              (firstn 21 signupGestures)) as (_ & _ & _ & _ & Hn).
  exact Hn.
Defined.

Lemma settle_outputs_no_call (o : SignUpOutcome) (s : State) :
  filter isCall (map FromSignup (snd (signUpSettled o s))) = [].
Proof. destruct o as [e [msg|]|]; reflexivity. Qed.

Lemma signIn_outputs_no_call (o : SignInOutcome) (s : State) :
  filter isCall (snd (signInSettled o s)) = [].
Proof. destruct o as [e [msg|]|]; reflexivity. Qed.

(** X11. On every page that can be reached at most one auth call ([signUp]
    or [signIn]) is awaited, [isLoading] is true exactly while one is, and
    while one is awaited no gesture makes the component start another. *)
Theorem one_auth_call_at_a_time `{Runtime} (b : Build) (gs : list Gesture) (g : Gesture) :
  let p := play b boot gs in
  (List.length (awaiting p) <= 1)%nat
  /\ (isLoading (ui (page p)) = true <-> awaiting p <> [])
  /\ (awaiting p <> [] ->
        filter isCall (outputs (act b p g)) = filter isCall (outputs p)).
Proof.
  cbv zeta. destruct (sound_play b gs boot sound_boot) as [(_ & L & N) _].
  split; [exact N|]. split; [exact L|].
  intros Hbusy. apply L in Hbusy. set (p := play b boot gs) in *.
  destruct g as [| | | | |u|i|dt|i r|o|o]; unfold act.
  - destruct (authMode _); reflexivity.
  - destruct (authMode _); reflexivity.
  - destruct (authMode _); reflexivity.
  - unfold bottomDisabled. rewrite Hbusy, orb_true_r.
    destruct (authMode _); reflexivity.
  - unfold submitDisabled. rewrite Hbusy. cbn.
    destruct (authMode _); reflexivity.
  - destruct (offered _ u); reflexivity.
  - destruct (authMode _); try reflexivity.
    destruct (signupStep _); try reflexivity.
    destruct (includes interestIds i); reflexivity.
  - reflexivity.
  - reflexivity.
  - unfold resume. destruct (existsb _ _); [|reflexivity].
    pose proof (settle_outputs_no_call o (ui (page p))) as Hno.
    destruct (signUpSettled o (ui (page p))). cbn [outputs snd] in *.
    now rewrite filter_app, Hno, app_nil_r.
  - unfold resume. destruct (existsb _ _); [|reflexivity].
    pose proof (signIn_outputs_no_call o (ui (page p))) as Hno.
    destruct (signInSettled o (ui (page p))). cbn [outputs snd] in *.
    now rewrite filter_app, Hno, app_nil_r.
Qed.

Lemma one_auth_call_at_a_time_witness :
  awaiting (@play basicLatin ProfilesCheck boot signupGestures) <> []
  /\ filter isCall
       (outputs (@act basicLatin ProfilesCheck
                   (@play basicLatin ProfilesCheck boot signupGestures)
                   PressBottom))
     = filter isCall (outputs (@play basicLatin ProfilesCheck boot signupGestures)).
Proof.
  assert (Hb : awaiting (@play basicLatin ProfilesCheck boot signupGestures) <> [])
    by (vm_compute; discriminate).
  split; [exact Hb|].
  destruct (@one_auth_call_at_a_time basicLatin ProfilesCheck signupGestures
              PressBottom) as (_ & _ & Hq).
  exact (Hq Hb).
Defined.

(** X12. Every [signIn] call that the component makes has a non-empty
    email and a non-empty password. *)
Theorem signIn_needs_credentials `{Runtime} (b : Build) (gs : list Gesture)
    (mail pass : jsstring) :
  In (SignIn mail pass) (outputs (play b boot gs)) ->
  mail <> [] /\ pass <> [].
Proof.
  intros Hin. destruct (sound_play b gs boot sound_boot) as [_ Hall].
  rewrite Forall_forall in Hall. apply (Hall _ Hin).
Qed.

Lemma signIn_needs_credentials_witness :
  In (SignIn (js "a@b.com") (js "pw"))
     (outputs (@play basicLatin ProfilesCheck boot
                 [PressSignIn; PressBottom; Input (SetEmail (js "a@b.com"));
                  PressBottom; Input (SetPassword (js "pw")); PressBottom]))
  /\ js "pw" <> [].
Proof.
  assert (Hin : In (SignIn (js "a@b.com") (js "pw"))
     (outputs (@play basicLatin ProfilesCheck boot
                 [PressSignIn; PressBottom; Input (SetEmail (js "a@b.com"));
                  PressBottom; Input (SetPassword (js "pw")); PressBottom])))
    by (vm_compute; left; reflexivity).
  split; [exact Hin|].
  destruct (@signIn_needs_credentials basicLatin ProfilesCheck _ _ _ Hin)
    as [_ Hp].
  exact Hp.
Defined.

(** X13. On every page that can be reached, with either copy's check: two
    availability queries are 500 or more apart, none is later than the
    clock, a pending debounce timer is not overdue, and the spinner
    [checkingUsername] is on only while a check is under way. *)
Theorem queries_are_paced `{Runtime} (b : Build) (gs : list Gesture) :
  let x := page (play b boot gs) in
  StronglySorted apart (queries x)
  /\ Forall (fun q => fst q <= now x) (queries x)
  /\ (forall tm, debounceTimeout x = Some tm -> now x < fireAt tm)
  /\ (checkingUsername (ui x) = true -> inFlight x <> []).
Proof.
  destruct (paced_play b gs boot paced_boot) as (Hq & Hs & Hd & Hc).
  cbv zeta. split; [exact Hs|]. split; [exact Hq|]. split; [|exact Hc].
  intros tm Htm. apply (Hd tm Htm).
Qed.

Lemma queries_are_paced_witness :
  debounceTimeout (page (@play basicLatin ProfilesCheck boot
                           (firstn 17 signupGestures)))
    = Some {| fireAt := 500; arg := js "uniqueName42" |}
  /\ now (page (@play basicLatin ProfilesCheck boot
                  (firstn 17 signupGestures))) < 500.
Proof.
  assert (Hd : debounceTimeout (page (@play basicLatin ProfilesCheck boot
                                        (firstn 17 signupGestures)))
               = Some {| fireAt := 500; arg := js "uniqueName42" |})
    by (vm_compute; reflexivity).
  split; [exact Hd|].
  destruct (@queries_are_paced basicLatin ProfilesCheck
              (firstn 17 signupGestures)) as (_ & _ & Hdue & _).
  exact (Hdue _ Hd).
Defined.

(** X14. With the mock copy's check, which settles 500 after it was
    started, at most one check is under way at any time, and it was started
    less than 500 ago. *)
Theorem mock_checks_never_overlap `{Runtime} (gs : list Gesture) :
  let x := page (play MockCheck boot gs) in
  (List.length (inFlight x) <= 1)%nat
  /\ Forall (fun c => issuedAt c <= now x < issuedAt c + 500) (inFlight x).
Proof.
  destruct (solo_play gs boot solo_boot) as (Hn & Hi & _).
  split; assumption.
Qed.

Lemma queries_elapse_idle `{Runtime} (b : Build) (dt : Z) (x : Session) :
  debounceTimeout x = None -> queries (elapse b dt x) = queries x.
Proof.
  intros Hd.
  pose proof (DebounceFacts.timing_handle b x (Elapse dt)) as Ht.
  apply (f_equal t_queries) in Ht. cbn [handle timing t_queries] in Ht.
  rewrite Ht. unfold advance. cbn [timing t_now t_debounce t_queries].
  rewrite Hd. destruct (dt <? 0); reflexivity.
Qed.

Lemma beginNextStep_username (s : State) :
  signupStep s = Username ->
  beginNextStep s = (setSignupStep Interests s, [], []).
Proof. intros Hs. unfold beginNextStep. rewrite Hs. reflexivity. Qed.

(** X15. On the user-name step, the verdict being [true] and no auth call
    awaited: a different name of 3 or more units typed in, and Continue
    pressed at once, lead to the interests step with the new name in the
    form, and no query is made for it: the step change clears the debounce
    timer, and none is made while waiting afterwards. *)
Theorem changed_name_passes_unchecked `{Runtime} (b : Build) (p : Page)
    (v : jsstring) :
  authMode (ui (page p)) = Signup ->
  signupStep (ui (page p)) = Username ->
  usernameAvailable (ui (page p)) = Some true ->
  isLoading (ui (page p)) = false ->
  3 <= len v ->
  v <> username (authData (ui (page p))) ->
  let p' := play b p [Input (SetUsername v); PressBottom] in
  signupStep (ui (page p')) = Interests
  /\ username (authData (ui (page p'))) = v
  /\ queries (page p') = queries (page p)
  /\ debounceTimeout (page p') = None
  /\ (forall dt, queries (page (act b p' (Wait dt))) = queries (page p')).
Proof.
  intros Hm Hs Hv Hl Hlen Hne. cbv zeta.
  assert (Hmain :
    signupStep (ui (page (play b p [Input (SetUsername v); PressBottom])))
      = Interests
    /\ username (authData (ui (page (play b p
                   [Input (SetUsername v); PressBottom])))) = v
    /\ queries (page (play b p [Input (SetUsername v); PressBottom]))
       = queries (page p)
    /\ debounceTimeout (page (play b p [Input (SetUsername v); PressBottom]))
       = None).
  { destruct p as [[u n d fl nc q] aw out].
    destruct u as [m st ua ck ld dta]. cbn in Hm, Hs, Hv, Hl, Hne. subst.
    destruct dta as [e pw c f l g a co us i]. cbn in Hne.
    apply eqb_str_neq in Hne. apply Z.leb_le in Hlen.
    unfold play. cbn [fold_left].
    set (p1 := act b _ (Input (SetUsername v))).
    assert (E1 : p1 =
      {| page :=
           {| ui := {| authMode := Signup; signupStep := Username;
                       usernameAvailable := Some true;
                       checkingUsername := ck; isLoading := false;
                       authData :=
                         {| email := e; password := pw; confirmPassword := c;
                            firstName := f; lastName := l; gender := g;
                            age := a; country := co; username := v;
                            interests := i |} |};
              now := n;
              debounceTimeout :=
                if negb (eqb_str v [])
                then Some {| fireAt := n + 500; arg := v |} else None;
              inFlight := fl; nextCheck := nc; queries := q |};
         awaiting := aw; outputs := out |}).
    { unfold p1, act, render, commit, usernameEffect, updateAuthData.
      cbn -[eqb_str]. rewrite Hne. cbn -[eqb_str].
      destruct (negb (eqb_str v [])); reflexivity. }
    rewrite E1. clear p1 E1.
    unfold act, bottomDisabled, canProceedToNext, start.
    cbn -[eqb_str len Z.leb beginNextStep]. rewrite Hlen.
    cbn -[eqb_str len Z.leb beginNextStep].
    rewrite beginNextStep_username by reflexivity.
    unfold render, commit, usernameEffect.
    cbn -[eqb_str]. rewrite eqb_str_refl. cbn. repeat split. }
  destruct Hmain as (A & B & C & D).
  repeat (split; [assumption|]).
  intros dt. cbn [act withPage page]. now apply queries_elapse_idle.
Qed.

Lemma changed_name_passes_unchecked_witness :
  signupStep (ui (page (@play basicLatin ProfilesCheck verifiedName
                          [Input (SetUsername (js "admin")); PressBottom])))
    = Interests
  /\ queries (page (@play basicLatin ProfilesCheck verifiedName
                      [Input (SetUsername (js "admin")); PressBottom]))
     = [(500, js "uniquename42")].
Proof.
  assert (Hm : authMode (ui (page verifiedName)) = Signup)
    by (vm_compute; reflexivity).
  assert (Hs : signupStep (ui (page verifiedName)) = Username)
    by (vm_compute; reflexivity).
  assert (Hv : usernameAvailable (ui (page verifiedName)) = Some true)
    by (vm_compute; reflexivity).
  assert (Hl : isLoading (ui (page verifiedName)) = false)
    by (vm_compute; reflexivity).
  assert (Hlen : 3 <= len (js "admin")) by (vm_compute; discriminate).
  assert (Hne : js "admin" <> username (authData (ui (page verifiedName))))
    by (vm_compute; discriminate).
  destruct (@changed_name_passes_unchecked basicLatin ProfilesCheck verifiedName
              (js "admin") Hm Hs Hv Hl Hlen Hne) as (A & _ & C & _).
  split; [exact A|]. rewrite C. vm_compute. reflexivity.
Defined.

(** ** The steps on their own *)

(** X16. [goToNextStep] and [goToPreviousStep] undo each other: before the
    last step, next then previous gives the state back and has no effect on
    the outside; after the first step, so does previous then next. *)
Theorem next_and_back_cancel (o : SignUpOutcome) (s : State) :
  (indexOf steps (signupStep s) < 8 ->
     goToPreviousStep (fst (goToNextStep o s)) = s
     /\ snd (goToNextStep o s) = [])
  /\ (0 < indexOf steps (signupStep s) ->
       fst (goToNextStep o (goToPreviousStep s)) = s
       /\ snd (goToNextStep o (goToPreviousStep s)) = []).
Proof.
  destruct s as [m st ua ck ld d].
  split; intros Hi; destruct st; cbn in Hi;
    try (exfalso; lia); split; reflexivity.
Qed.

Lemma next_and_back_cancel_witness :
  goToPreviousStep (fst (goToNextStep SignUpRejected (onStep Age))) = onStep Age
  /\ fst (goToNextStep SignUpRejected (goToPreviousStep (onStep Age)))
     = onStep Age.
Proof.
  destruct (next_and_back_cancel SignUpRejected (onStep Age)) as [Hn Hb].
  split.
  - apply Hn. vm_compute. reflexivity.
  - apply Hb. vm_compute. reflexivity.
Defined.

Lemma authData_goToPreviousStep (t : State) :
  authData (goToPreviousStep t) = authData t.
Proof.
  unfold goToPreviousStep.
  destruct (0 <? indexOf steps (signupStep t));
    [destruct (at_index steps (indexOf steps (signupStep t) - 1))|];
    reflexivity.
Qed.

(** X17. [goToPreviousStep] repeated: from the step of index k, n <= k
    calls lead to the step of index k - n in the same mode, the call after
    them leads to the mode [welcome] on the step [email], and no call
    changes the form. *)
Theorem back_leads_to_welcome (s : State) :
  let k := Z.to_nat (indexOf steps (signupStep s)) in
  (forall n, (n <= k)%nat ->
     authMode (Nat.iter n goToPreviousStep s) = authMode s
     /\ indexOf steps (signupStep (Nat.iter n goToPreviousStep s))
        = indexOf steps (signupStep s) - Z.of_nat n)
  /\ authMode (Nat.iter (S k) goToPreviousStep s) = Welcome
  /\ signupStep (Nat.iter (S k) goToPreviousStep s) = Email
  /\ (forall n, authData (Nat.iter n goToPreviousStep s) = authData s).
Proof.
  cbv zeta. split; [|split; [|split]].
  - destruct s as [m st ua ck ld d]. intros n Hn.
    destruct st; cbn in Hn;
      do 9 (destruct n as [|n];
            [first [exfalso; lia | split; reflexivity]|]);
      exfalso; lia.
  - destruct s as [m st ua ck ld d]. destruct st; reflexivity.
  - destruct s as [m st ua ck ld d]. destruct st; reflexivity.
  - intros n. induction n as [|n IH]; [reflexivity|].
    rewrite Nat.iter_succ, authData_goToPreviousStep. exact IH.
Qed.

Lemma back_leads_to_welcome_witness :
  indexOf steps (signupStep (Nat.iter 2 goToPreviousStep (onStep Age))) = 3
  /\ authMode (Nat.iter 6 goToPreviousStep (onStep Age)) = Welcome.
Proof.
  destruct (back_leads_to_welcome (onStep Age)) as (Hn & Hw & _).
  split; [|exact Hw].
  destruct (Hn 2%nat) as [_ Hi]; [vm_compute; lia|exact Hi].
Defined.

(** X18. On the age step the warning line under the input and the
    Continue button go by the same reading of the field: when [parseInt]
    gives a number from 13 to 120 the button is enabled and the warning is
    off; when it gives another number the button is disabled and the
    warning is on; when it gives NaN (the empty field too) the button is
    disabled and the warning is off. *)
Theorem age_warning_or_gate (s : State) :
  signupStep s = Age ->
  match parseInt (age (authData s)) with
  | None => canProceedToNext s = false /\ ageWarning s = false
  | Some n =>
      if (13 <=? n) && (n <=? 120)
      then canProceedToNext s = true /\ ageWarning s = false
      else canProceedToNext s = false /\ ageWarning s = true
  end.
Proof.
  intros Hs. unfold canProceedToNext, ageWarning. rewrite Hs.
  destruct (parseInt (age (authData s))) as [n|] eqn:Hp; cbn [geNum leNum].
  - assert (Hne : age (authData s) <> []).
    { intros E. rewrite E in Hp. discriminate. }
    pose proof Hne as Hlen. apply len_pos in Hlen.
    apply eqb_str_neq in Hne. rewrite Hlen, Hne. cbn [negb andb].
    destruct (13 <=? n) eqn:H13, (n <=? 120) eqn:H120; cbn [andb];
      rewrite ?Z.leb_le, ?Z.leb_gt in *; split;
      try reflexivity;
      repeat match goal with
             | |- context [?a <? ?b] =>
                 let E := fresh in destruct (a <? b) eqn:E;
                 rewrite ?Z.ltb_lt, ?Z.ltb_ge in E
             end; cbn; try reflexivity; exfalso; lia.
  - rewrite !andb_false_r. split; reflexivity.
Qed.

Lemma age_warning_or_gate_witness :
  ageWarning (atAge (js "12")) = true
  /\ canProceedToNext (atAge (js "abc")) = false
  /\ ageWarning (atAge (js "abc")) = false.
Proof.
  pose proof (age_warning_or_gate (atAge (js "12")) eq_refl) as H12.
  pose proof (age_warning_or_gate (atAge (js "abc")) eq_refl) as Habc.
  vm_compute parseInt in H12, Habc. cbn in H12, Habc.
  destruct H12 as [_ H12]. destruct Habc as [Ha Hb].
  split; [exact H12|]. split; [exact Ha|exact Hb].
Defined.

End PageFacts.
